(** * Cross-cloud storage replicator: the Lambda replication handler

    A shallow embedding of [lambda_handler] and its helpers (the second half
    of [src/app.py], "lambda function.py"): event normalisation, the
    idempotency check, the chunked streaming upload and the retry loop,
    together with a model of the object-store clients the code calls, and
    of the HTTP endpoint [replicate] at the top of the file, which only
    acknowledges a request. *)

From Stdlib Require Import ZArith NArith Lia List String Ascii Bool.
From stdpp Require Import base option list gmap strings.

Set Warnings "-register-all".

Local Open Scope Z_scope.
Local Open Scope list_scope.

(** ** Python values *)

(** A Python [str] is a sequence of Unicode code points. *)
Definition str := list N.

(** [bytes] objects whose content is only copied, never inspected. *)
Definition bytes := list Byte.byte.

(** An ASCII literal as a Python [str]. *)
Definition py (s : string) : str :=
  map N_of_ascii (list_ascii_of_string s).

(** The event handed to the handler is a decoded JSON document. *)
Inductive pyval : Type :=
| PNone
| PBool (b : bool)
| PInt (z : Z)
| PFloat (repr : string)
| PStr (s : str)
| PList (items : list pyval)
| PDict (items : list (str * pyval)).

(** Exceptions the handler can observe.  [EnvError] stands for whatever a
    library raises (network, permission, validation, decoding errors); the
    other constructors are raised by the interpreter and by the handler's own
    code. *)
Inductive exn : Type :=
| KeyError
| IndexError
| TypeError
| AttributeError
| ValueError
| RuntimeError (msg : string)
| EnvError (tag : string).

#[global] Instance exn_eq_dec : EqDecision exn.
Proof. solve_decision. Defined.

(** ** [urllib.parse.unquote_plus]

    The standard-library function the handler applies to the raw key.
    [unquote_plus] turns every [+] into a space and calls [unquote], which
    percent-decodes each maximal run of ASCII characters into bytes and decodes
    those bytes as UTF-8 with [errors='replace']; non-ASCII characters are
    kept. *)
Module Urllib.

Definition hexval (c : N) : option N :=
  if (48 <=? c)%N && (c <=? 57)%N then Some (c - 48)%N
  else if (65 <=? c)%N && (c <=? 70)%N then Some (c - 55)%N
  else if (97 <=? c)%N && (c <=? 102)%N then Some (c - 87)%N
  else None.

Definition percent : N := 37.
Definition plus : N := 43.
Definition space : N := 32.

(** [unquote_to_bytes] on an ASCII run: [%XY] with two hexadecimal digits is
    one byte, any other [%] stays. *)
Fixpoint unquote_to_bytes (s : list N) : list N :=
  match s with
  | [] => []
  | c :: r =>
      if (c =? percent)%N then
        match r with
        | h :: l :: r' =>
            match hexval h, hexval l with
            | Some a, Some b => (16 * a + b)%N :: unquote_to_bytes r'
            | _, _ => c :: unquote_to_bytes r
            end
        | _ => c :: unquote_to_bytes r
        end
      else c :: unquote_to_bytes r
  end.

Definition replacement : N := 65533.

Definition is_cont (b : N) : bool := (128 <=? b)%N && (b <=? 191)%N.

(** The second byte of a three- or four-byte sequence has a narrower range
    after the lead bytes E0, ED, F0 and F4. *)
Definition second_ok (lead b : N) : bool :=
  is_cont b &&
  (if (lead =? 224)%N then (160 <=? b)%N
   else if (lead =? 237)%N then (b <? 160)%N
   else if (lead =? 240)%N then (144 <=? b)%N
   else if (lead =? 244)%N then (b <? 144)%N
   else true).

(** [bytes.decode('utf-8', 'replace')]: each maximal ill-formed prefix
    becomes one U+FFFD. *)
Fixpoint utf8_decode (bs : list N) : list N :=
  match bs with
  | [] => []
  | b0 :: r0 =>
      if (b0 <? 128)%N then b0 :: utf8_decode r0
      else if (b0 <? 194)%N then replacement :: utf8_decode r0
      else if (b0 <? 224)%N then
        match r0 with
        | [] => [replacement]
        | b1 :: r1 =>
            if is_cont b1
            then ((b0 - 192) * 64 + (b1 - 128))%N :: utf8_decode r1
            else replacement :: utf8_decode r0
        end
      else if (b0 <? 240)%N then
        match r0 with
        | [] => [replacement]
        | b1 :: r1 =>
            if second_ok b0 b1 then
              match r1 with
              | [] => [replacement]
              | b2 :: r2 =>
                  if is_cont b2
                  then ((b0 - 224) * 4096 + (b1 - 128) * 64 + (b2 - 128))%N
                         :: utf8_decode r2
                  else replacement :: utf8_decode r1
              end
            else replacement :: utf8_decode r0
        end
      else if (b0 <? 245)%N then
        match r0 with
        | [] => [replacement]
        | b1 :: r1 =>
            if second_ok b0 b1 then
              match r1 with
              | [] => [replacement]
              | b2 :: r2 =>
                  if is_cont b2 then
                    match r2 with
                    | [] => [replacement]
                    | b3 :: r3 =>
                        if is_cont b3
                        then ((b0 - 240) * 262144 + (b1 - 128) * 4096
                              + (b2 - 128) * 64 + (b3 - 128))%N
                               :: utf8_decode r3
                        else replacement :: utf8_decode r2
                    end
                  else replacement :: utf8_decode r1
              end
            else replacement :: utf8_decode r0
        end
      else replacement :: utf8_decode r0
  end.

(** One ASCII run, collected in reverse, decoded. *)
Definition flush (run : list N) : str :=
  utf8_decode (unquote_to_bytes (rev run)).

Fixpoint unquote_parts (run : list N) (s : str) : str :=
  match s with
  | [] => flush run
  | c :: r =>
      if (c <? 128)%N then unquote_parts (c :: run) r
      else flush run ++ c :: unquote_parts [] r
  end.

Definition unquote (s : str) : str :=
  if existsb (N.eqb percent) s then unquote_parts [] s else s.

Definition replace_plus (s : str) : str :=
  map (fun c => if (c =? plus)%N then space else c) s.

Definition unquote_plus (s : str) : str := unquote (replace_plus s).





End Urllib.

(** ** Outcomes and the state-and-exception monad *)

(** A Python call either returns a value or raises. *)
Inductive outcome (A : Type) : Type :=
| Returned (a : A)
| Raised (e : exn).
Arguments Returned {A} a.
Arguments Raised {A} e.

Definition outcome_bind {A B} (o : outcome A) (k : A -> outcome B) : outcome B :=
  match o with
  | Returned a => k a
  | Raised e => Raised e
  end.

(** Effectful code threads a state [St] and may raise. *)
Definition M (St A : Type) : Type := St -> outcome A * St.

Definition ret {St A} (a : A) : M St A := fun s => (Returned a, s).
Definition raise {St A} (e : exn) : M St A := fun s => (Raised e, s).
Definition lift {St A} (o : outcome A) : M St A := fun s => (o, s).

Definition bind {St A B} (m : M St A) (k : A -> M St B) : M St B :=
  fun s =>
    match m s with
    | (Returned a, s') => k a s'
    | (Raised e, s') => (Raised e, s')
    end.

(** [try: body / except Exception as e: handler e]. *)
Definition try_except {St A} (body : M St A) (handler : exn -> M St A) : M St A :=
  fun s =>
    match body s with
    | (Returned a, s') => (Returned a, s')
    | (Raised e, s') => handler e s'
    end.

(** [try: body / except: pass]. *)
Definition try_pass {St A} (body : M St A) : M St unit :=
  fun s => (Returned tt, snd (body s)).

Declare Scope py_scope.
Delimit Scope py_scope with py.
Notation "x <- m ;; k" := (bind m (fun x => k))
  (at level 20, m at level 99, k at level 200, only parsing) : py_scope.
Notation "' p <- m ;; k" := (bind m (fun x => match x with p => k end))
  (at level 20, p pattern, m at level 99, k at level 200, only parsing) : py_scope.
Notation "m ;; k" := (bind m (fun _ => k))
  (at level 100, k at level 200, right associativity, only parsing) : py_scope.
Local Open Scope py_scope.

(** ** Subscription [v[k]] on event values *)

(** A [dict] is kept as the list of its items; a lookup takes the first item
    with the key. *)
Fixpoint dict_get (items : list (str * pyval)) (k : str) : option pyval :=
  match items with
  | [] => None
  | (k', v) :: rest => if decide (k' = k) then Some v else dict_get rest k
  end.

(** [v[k]] with a string key. *)
Definition subscript (v : pyval) (k : string) : outcome pyval :=
  match v with
  | PDict items =>
      match dict_get items (py k) with
      | Some x => Returned x
      | None => Raised KeyError
      end
  | _ => Raised TypeError
  end.

(** [v[0]]. *)
Definition subscript0 (v : pyval) : outcome pyval :=
  match v with
  | PList (x :: _) => Returned x
  | PList [] => Raised IndexError
  | PStr (c :: _) => Returned (PStr [c])
  | PStr [] => Raised IndexError
  | PDict _ => Raised KeyError
  | _ => Raised TypeError
  end.

(** [urllib.parse.unquote_plus(v)]: only a [str] has [replace]. *)
Definition unquote_plus (v : pyval) : outcome str :=
  match v with
  | PStr s => Returned (Urllib.unquote_plus s)
  | _ => Raised AttributeError
  end.

(** ** The environment of one invocation *)

(** What [logger.info], [logger.warning] and [logger.error] are called with. *)
Inductive log_record : Type :=
| ReceivedEvent (event : pyval)
| InvalidEventFormat (e : exn)
| SkippingExisting (key : str)
| IdempotencyCheckFailed (e : exn)
| AttemptFailed (attempt : Z) (e : exn)
| SuccessfullyReplicated (bucket : pyval) (key : str).

(** A source object: its body and the [ContentLength] the response reports. *)
Record s3_object : Type := S3Object {
  object_body : bytes;
  content_length : option Z
}.

(** A [StreamingBody]: the bytes not yet read. *)
Record stream_state : Type := Stream {
  pending : bytes;
  stream_closed : bool
}.

(** A destination write stream ([blob.open("wb")]). *)
Record writer_state : Type := Writer {
  target : str;
  buffer : bytes;
  writer_closed : bool
}.

(** The state the handler acts on.  [faults] and [short_reads] are the
    environment's choices: the next client call raises [EnvError tag] when the
    head of [faults] is [Some tag], and the next [read] returns at most the
    head of [short_reads] bytes. *)
Record world : Type := World {
  s3_objects : gmap (str * str) s3_object;
  gcs_objects : gmap str bytes;
  files : gmap string str;
  streams : list stream_state;
  writers : list writer_state;
  slept : list Z;
  logged : list log_record;
  faults : list (option string);
  short_reads : list positive
}.

Definition set_gcs_objects (f : gmap str bytes -> gmap str bytes) (w : world) : world :=
  World (s3_objects w) (f (gcs_objects w)) (files w) (streams w) (writers w)
        (slept w) (logged w) (faults w) (short_reads w).
Definition set_files (f : gmap string str -> gmap string str) (w : world) : world :=
  World (s3_objects w) (gcs_objects w) (f (files w)) (streams w) (writers w)
        (slept w) (logged w) (faults w) (short_reads w).
Definition set_streams (f : list stream_state -> list stream_state) (w : world) : world :=
  World (s3_objects w) (gcs_objects w) (files w) (f (streams w)) (writers w)
        (slept w) (logged w) (faults w) (short_reads w).
Definition set_writers (f : list writer_state -> list writer_state) (w : world) : world :=
  World (s3_objects w) (gcs_objects w) (files w) (streams w) (f (writers w))
        (slept w) (logged w) (faults w) (short_reads w).
Definition set_slept (f : list Z -> list Z) (w : world) : world :=
  World (s3_objects w) (gcs_objects w) (files w) (streams w) (writers w)
        (f (slept w)) (logged w) (faults w) (short_reads w).
Definition set_logged (f : list log_record -> list log_record) (w : world) : world :=
  World (s3_objects w) (gcs_objects w) (files w) (streams w) (writers w)
        (slept w) (f (logged w)) (faults w) (short_reads w).
Definition set_faults (f : list (option string) -> list (option string)) (w : world) : world :=
  World (s3_objects w) (gcs_objects w) (files w) (streams w) (writers w)
        (slept w) (logged w) (f (faults w)) (short_reads w).
Definition set_short_reads (f : list positive -> list positive) (w : world) : world :=
  World (s3_objects w) (gcs_objects w) (files w) (streams w) (writers w)
        (slept w) (logged w) (faults w) (f (short_reads w)).

(** Every call into a client library first asks the environment whether it
    fails; a failing call has no other effect. *)
Definition env_call : M world unit :=
  fun w =>
    match faults w with
    | Some tag :: _ => (Raised (EnvError tag), set_faults (drop 1) w)
    | _ => (Returned tt, set_faults (drop 1) w)
    end.

(** *** Logging and sleeping *)

Definition logger_log (r : log_record) : M world unit :=
  fun w => (Returned tt, set_logged (fun l => l ++ [r]) w).

(** [time.sleep(d)] raises [ValueError] on a negative [d].  Lengths too
    large for the clock of the platform, on which it raises [OverflowError],
    are left out. *)
Definition world_sleep (d : Z) : M world unit :=
  fun w =>
    if d <? 0 then (Raised ValueError, w)
    else (Returned tt, set_slept (fun l => l ++ [d]) w).

(** *** The source store (boto3) *)

Record get_object_response : Type := GetObjectResponse {
  Body : nat;
  ContentLength : option Z
}.

(** [s3.get_object(Bucket=bucket, Key=key)]: a fresh stream on the object.
    The call raises when the object is not there and when the bucket name is
    not a string; the two tags tell these failures apart and do not stand
    for the classes of the exceptions. *)
Definition s3_get_object (bucket : pyval) (key : str) : M world get_object_response :=
  env_call ;;
  fun w =>
    match bucket with
    | PStr b =>
        match s3_objects w !! (b, key) with
        | Some o =>
            (Returned (GetObjectResponse (length (streams w)) (content_length o)),
             set_streams (fun l => l ++ [Stream (object_body o) false]) w)
        | None => (Raised (EnvError "NoSuchKey"), w)
        end
    | _ => (Raised (EnvError "ParamValidationError"), w)
    end.

(** The first [amt] bytes of [data] and the rest. *)
Fixpoint split_at (amt : Z) (data : bytes) : bytes * bytes :=
  match data with
  | [] => ([], [])
  | x :: rest =>
      if amt <=? 0 then ([], data)
      else let (a, b) := split_at (amt - 1) rest in (x :: a, b)
  end.

(** [stream.read(amt)] for a positive [amt]: at most [amt] bytes, fewer when
    the environment delivers fewer, none only at the end of the stream. *)
Definition stream_read (sid : nat) (amt : Z) : M world bytes :=
  env_call ;;
  fun w =>
    match streams w !! sid with
    | Some (Stream data false) =>
        let cap :=
          match short_reads w with
          | p :: _ => Z.min amt (Z.pos p)
          | [] => amt
          end in
        let (chunk, rest) := split_at cap data in
        (Returned chunk,
         set_short_reads (drop 1)
           (set_streams (fun l => <[sid := Stream rest false]> l) w))
    | _ => (Raised ValueError, w)
    end.

(** [stream.close()]. *)
Definition stream_close (sid : nat) : M world unit :=
  env_call ;;
  fun w =>
    match streams w !! sid with
    | Some (Stream data _) =>
        (Returned tt, set_streams (fun l => <[sid := Stream data true]> l) w)
    | None => (Raised ValueError, w)
    end.

(** *** The destination store (google.cloud.storage)

    [gcs_objects] is the content of the one bucket the handler writes to. *)

Record gcs_client : Type := GcsClient { credentials : str }.
Record gcs_bucket : Type := GcsBucket { bucket_client : gcs_client; bucket_name : option str }.

(** A blob handle is a local object: the name it stands for and the metadata
    it has loaded from the store, of which only the size matters here. *)
Record gcs_blob : Type := GcsBlob {
  blob_bucket : gcs_bucket;
  blob_name : str;
  loaded_size : option Z
}.

Definition client_bucket (c : gcs_client) (name : option str) : gcs_bucket := GcsBucket c name.

(** [bucket.blob(name)] makes a handle without a request to the store: it
    holds no metadata. *)
Definition bucket_blob (b : gcs_bucket) (name : str) : gcs_blob := GcsBlob b name None.

(** [blob.exists()] asks the store whether the object is there.  It loads
    no metadata into the handle. *)
Definition blob_exists (blob : gcs_blob) : M world bool :=
  env_call ;;
  fun w => (Returned (bool_decide (is_Some (gcs_objects w !! blob_name blob))), w).

(** [blob.size] is a property of the handle: it reads the metadata the
    handle has loaded and makes no request, so it is [None] on a handle that
    has loaded none, whatever the store holds. *)
Definition blob_size (blob : gcs_blob) : M world (option Z) :=
  ret (loaded_size blob).

(** [blob.open("wb")]. *)
Definition blob_open (blob : gcs_blob) : M world nat :=
  env_call ;;
  fun w => (Returned (length (writers w)),
            set_writers (fun l => l ++ [Writer (blob_name blob) [] false]) w).

(** [f.write(chunk)]. *)
Definition writer_write (fid : nat) (chunk : bytes) : M world unit :=
  env_call ;;
  fun w =>
    match writers w !! fid with
    | Some (Writer key buf false) =>
        (Returned tt, set_writers (fun l => <[fid := Writer key (buf ++ chunk) false]> l) w)
    | _ => (Raised ValueError, w)
    end.

(** [f.close()]: the object becomes visible with everything written. *)
Definition writer_close (fid : nat) : M world unit :=
  env_call ;;
  fun w =>
    match writers w !! fid with
    | Some (Writer key buf false) =>
        (Returned tt,
         set_gcs_objects (fun m => <[key := buf]> m)
           (set_writers (fun l => <[fid := Writer key buf true]> l) w))
    | Some (Writer _ _ true) => (Returned tt, w)
    | None => (Raised ValueError, w)
    end.

(** [with blob.open("wb") as f: body f]: [f] is closed however [body] ends;
    an exception raised by the closing replaces the one of the body.  Closing
    commits what was written also when [body] raised; versions of the
    library that drop it instead differ in runs where [body] raises, and only
    there. *)
Definition with_blob_open {A} (blob : gcs_blob) (body : nat -> M world A) : M world A :=
  f <- blob_open blob ;;
  fun w =>
    match body f w with
    | (Returned a, w1) =>
        match writer_close f w1 with
        | (Returned _, w2) => (Returned a, w2)
        | (Raised e, w2) => (Raised e, w2)
        end
    | (Raised e, w1) =>
        match writer_close f w1 with
        | (Returned _, w2) => (Raised e, w2)
        | (Raised e', w2) => (Raised e', w2)
        end
    end.

(** *** Local files *)

(** [with open(path, "w") as f: f.write(content)]. *)
Definition write_file (path : string) (content : str) : M world unit :=
  env_call ;;
  fun w => (Returned tt, set_files (fun m => <[path := content]> m) w).

(** ** Configuration and library parameters *)

(** The module-level globals read from the process environment. *)
Record config : Type := Config {
  GCS_BUCKET : option str;
  GCP_SA_KEY : option str;
  GCP_SA_KEY_B64 : option str;
  RETRY_ATTEMPTS : Z;
  RETRY_BACKOFF : Z
}.

(** Truth value of an [os.environ.get] result: unset and empty are false. *)
Definition truthy (v : option str) : bool :=
  match v with
  | Some (_ :: _) => true
  | _ => false
  end.

Definition env_value (v : option str) : str := default [] v.

(** Library functions whose results the handler only passes on:
    [base64.b64decode(s).decode("utf-8")] ([None] when it raises) and the
    check that [storage.Client.from_service_account_json] makes of the key
    file. *)
Class Libraries : Type := {
  b64decode_utf8 : str -> option str;
  service_account_ok : str -> bool
}.

(** What [retry_fn] needs from its surroundings. *)
Class Runtime (St : Type) : Type := {
  time_sleep : Z -> M St unit;
  logger_warning : log_record -> M St unit
}.

#[global] Instance world_runtime : Runtime world := {
  time_sleep := world_sleep;
  logger_warning := logger_log
}.

(** ** The functions of the handler module *)

Definition tmp_path : string := "/tmp/gcp_sa_key.json".

Definition credentials_required : exn :=
  RuntimeError "GCP_SA_KEY or GCP_SA_KEY_B64 environment variable is required".

Definition chunk_size : Z := 8 * 1024 * 1024.

Record response : Type := Response {
  statusCode : Z;
  response_body : string
}.

Definition skipped_response : response := Response 200 "Skipped - file already exists".
Definition success_response : response := Response 200 "Replication successful".

Section RetryFn.
Context {St : Type} `{Runtime St} {A : Type}.

(** The [for i in range(attempts)] loop with [todo] iterations left. *)
Fixpoint retry_from (fn : M St A) (attempts backoff : Z)
         (todo : nat) (i : Z) (last_exc : option exn) : M St A :=
  match todo with
  | O =>
      match last_exc with
      | Some e => raise e
      | None => raise TypeError
      end
  | S todo' =>
      try_except fn (fun e =>
        logger_warning (AttemptFailed (i + 1) e) ;;
        (if i <? attempts - 1 then time_sleep (backoff * (i + 1)) else ret tt) ;;
        retry_from fn attempts backoff todo' (i + 1) (Some e))
  end.

Definition retry_fn (fn : M St A) (attempts backoff : Z) : M St A :=
  retry_from fn attempts backoff (Z.to_nat attempts) 0 None.
End RetryFn.

Section Handler.
Context {libs : Libraries} (cfg : config).

(** [storage.Client.from_service_account_json(path)]. *)
Definition from_service_account_json (path : string) : M world gcs_client :=
  env_call ;;
  fun w =>
    match files w !! path with
    | Some content =>
        if service_account_ok content then (Returned (GcsClient content), w)
        else (Raised (EnvError "InvalidServiceAccountKey"), w)
    | None => (Raised (EnvError "FileNotFoundError"), w)
    end.

Definition init_gcs_client : M world gcs_client :=
  sa_json <-
    (if truthy (GCP_SA_KEY cfg) then ret (env_value (GCP_SA_KEY cfg))
     else if truthy (GCP_SA_KEY_B64 cfg)
          then match b64decode_utf8 (env_value (GCP_SA_KEY_B64 cfg)) with
               | Some decoded => ret decoded
               | None => raise (EnvError "binascii.Error")
               end
          else raise credentials_required) ;;
  write_file tmp_path sa_json ;;
  from_service_account_json tmp_path.

Definition s3_get_object_stream (bucket : pyval) (key : str) : M world (nat * option Z) :=
  resp <- s3_get_object bucket key ;;
  ret (Body resp, ContentLength resp).

(** The [while True] loop of [upload_stream_to_gcs].  Every iteration that
    does not leave the loop consumes at least one byte of the stream, so
    [fuel] larger than the number of pending bytes is never used up. *)
Fixpoint copy_chunks (fuel : nat) (f s3_stream : nat) : M world unit :=
  match fuel with
  | O => ret tt
  | S fuel' =>
      chunk <- stream_read s3_stream chunk_size ;;
      match chunk with
      | [] => ret tt
      | _ :: _ => writer_write f chunk ;; copy_chunks fuel' f s3_stream
      end
  end.

Definition pending_bytes (sid : nat) (w : world) : nat :=
  match streams w !! sid with
  | Some st => length (pending st)
  | None => 0
  end.

Definition upload_stream_to_gcs (bucket_obj : gcs_bucket) (dest_blob_name : str)
           (s3_stream : nat) : M world unit :=
  let blob := bucket_blob bucket_obj dest_blob_name in
  with_blob_open blob (fun f w =>
    copy_chunks (S (pending_bytes s3_stream w)) f s3_stream w).

Definition file_exists_and_same_size (bucket_obj : gcs_bucket) (blob_name : str)
           (s3_size : option Z) : M world bool :=
  let blob := bucket_blob bucket_obj blob_name in
  found <- blob_exists blob ;;
  if negb found then ret false
  else
    try_except
      match s3_size with
      | None => ret false
      | Some n => size <- blob_size blob ;; ret (bool_decide (size = Some n))
      end
      (fun _ => ret false).

(** Lines 100-110: the fields of the event, the key decoded. *)
Definition event_fields (event : pyval) : outcome (pyval * str) :=
  outcome_bind (subscript event "Records") (fun records =>
  outcome_bind (subscript0 records) (fun record =>
  outcome_bind (subscript record "s3") (fun s3 =>
  outcome_bind (subscript s3 "bucket") (fun bucket =>
  outcome_bind (subscript bucket "name") (fun s3_bucket =>
  outcome_bind (subscript record "s3") (fun s3' =>
  outcome_bind (subscript s3' "object") (fun object =>
  outcome_bind (subscript object "key") (fun raw_key =>
  outcome_bind (unquote_plus raw_key) (fun s3_key =>
  Returned (s3_bucket, s3_key)))))))))).

(** The nested function [upload] of [lambda_handler]. *)
Definition upload (gcs_bucket_obj : gcs_bucket) (s3_bucket : pyval) (s3_key : str)
  : M world bool :=
  '(stream, _) <- s3_get_object_stream s3_bucket s3_key ;;
  upload_stream_to_gcs gcs_bucket_obj s3_key stream ;;
  try_pass (stream_close stream) ;;
  ret true.

(** Lines 117-127: [Some r] when the handler returns [r] from inside the
    [try], [None] when it goes on to the upload. *)
Definition idempotency_gate (gcs_bucket_obj : gcs_bucket) (s3_key : str)
           (s3_stream : nat) (s3_size : option Z) : M world (option response) :=
  try_except
    (same <- file_exists_and_same_size gcs_bucket_obj s3_key s3_size ;;
     if same : bool then
       logger_log (SkippingExisting s3_key) ;;
       try_pass (stream_close s3_stream) ;;
       ret (Some skipped_response)
     else ret None)
    (fun e => logger_log (IdempotencyCheckFailed e) ;; ret None).

(** Lines 129-143. *)
Definition upload_with_retries (gcs_bucket_obj : gcs_bucket) (s3_bucket : pyval)
           (s3_key : str) : M world response :=
  retry_fn (upload gcs_bucket_obj s3_bucket s3_key)
           (RETRY_ATTEMPTS cfg) (RETRY_BACKOFF cfg) ;;
  logger_log (SuccessfullyReplicated s3_bucket s3_key) ;;
  ret success_response.

(** Lines 112-143: what the handler does once the event is read. *)
Definition replicate_object (s3_bucket : pyval) (s3_key : str) : M world response :=
  gcs_client <- init_gcs_client ;;
  let gcs_bucket_obj := client_bucket gcs_client (GCS_BUCKET cfg) in
  '(s3_stream, s3_size) <- s3_get_object_stream s3_bucket s3_key ;;
  skipped <- idempotency_gate gcs_bucket_obj s3_key s3_stream s3_size ;;
  match skipped with
  | Some r => ret r
  | None => upload_with_retries gcs_bucket_obj s3_bucket s3_key
  end.

Definition lambda_handler (event : pyval) : M world response :=
  logger_log (ReceivedEvent event) ;;
  '(s3_bucket, s3_key) <-
    try_except (lift (event_fields event))
               (fun e => logger_log (InvalidEventFormat e) ;; raise e) ;;
  replicate_object s3_bucket s3_key.

End Handler.

(** * The HTTP endpoint

    [replicate], the handler of [POST /v1/replicate] in the first part of
    [src/app.py]. *)

(** [bool(v)].  A [PFloat] carries the [repr] of the float, so the two zeros
    are ["0.0"] and ["-0.0"]. *)
Definition py_bool (v : pyval) : bool :=
  match v with
  | PNone => false
  | PBool b => b
  | PInt z => negb (z =? 0)
  | PFloat r => negb (bool_decide (r = "0.0"%string) || bool_decide (r = "-0.0"%string))
  | PStr [] => false
  | PStr (_ :: _) => true
  | PList [] => false
  | PList (_ :: _) => true
  | PDict [] => false
  | PDict (_ :: _) => true
  end.

(** [data.get(k)]: only a [dict] has [get]; a missing key gives [None]. *)
Definition py_get (data : pyval) (k : string) : outcome pyval :=
  match data with
  | PDict items => Returned (default PNone (dict_get items (py k)))
  | _ => Raised AttributeError
  end.

(** The request as the endpoint sees it: what [await request.json()] gives,
    [None] when the body is not JSON and the call raises. *)
Record request : Type := Request {
  request_json : option pyval
}.

(** [str(e)], the text of an exception. *)
Class ExceptionText : Type := {
  exception_str : exn -> str
}.

(** What the endpoint returns: a [JSONResponse] with its status code, or a
    plain [dict].  What the framework makes of a returned [dict] when it
    serialises it, after [replicate] has returned, is not part of
    [replicate]. *)
Inductive endpoint_result : Type :=
| JSONResponse (status_code : Z) (content : pyval)
| DictResult (content : pyval).

(** The state of the endpoint is its standard output: one entry per line
    printed, holding the two values the line is formatted from. *)
Definition stdout : Type := list (pyval * pyval).

(** Line 16 formats the two values into a line and prints it.  The console
    decides whether that works: [print_failure s3_bucket s3_key] is the
    exception raised when it does not, as [UnicodeEncodeError] when the
    codec of [sys.stdout] cannot encode the line.  The text layer encodes
    the whole line before it writes any of it, so a line that fails leaves
    nothing on the output. *)
Class Console : Type := {
  print_failure : pyval -> pyval -> option exn
}.

Definition print_request `{Console} (s3_bucket s3_key : pyval) : M stdout unit :=
  fun out =>
    match print_failure s3_bucket s3_key with
    | Some e => (Raised e, out)
    | None => (Returned tt, out ++ [(s3_bucket, s3_key)])
    end.

Definition missing_fields_content : pyval :=
  PDict [(py "error", PStr (py "Missing s3_bucket or s3_key"))].

Definition received_content (s3_bucket s3_key : pyval) : pyval :=
  PDict [(py "message", PStr (py "Received")); (py "bucket", s3_bucket); (py "key", s3_key)].

Definition replicate `{ExceptionText} `{Console} (req : request) : M stdout endpoint_result :=
  try_except
    (data <- match request_json req with
             | Some v => ret v
             | None => raise (EnvError "JSONDecodeError")
             end ;;
     s3_bucket <- lift (py_get data "s3_bucket") ;;
     s3_key <- lift (py_get data "s3_key") ;;
     if negb (py_bool s3_bucket) || negb (py_bool s3_key)
     then ret (JSONResponse 400 missing_fields_content)
     else
       print_request s3_bucket s3_key ;;
       ret (DictResult (received_content s3_bucket s3_key)))
    (fun e => ret (JSONResponse 500 (PDict [(py "error", PStr (exception_str e))]))).

(** * Vocabulary of the properties *)

(** ** Observing [retry_fn]

    [retry_fn] is written against any [Runtime]; running it on a state paired
    with a trace records every invocation of the attempt function and every
    sleep, in order. *)

Inductive probe_event : Type :=
| Attempt (raised : option exn)
| Sleep (seconds : Z).

Definition probe {St A} (fn : M St A) : M (St * list probe_event) A :=
  fun st =>
    match fn (fst st) with
    | (Returned a, s') => (Returned a, (s', snd st ++ [Attempt None]))
    | (Raised e, s') => (Raised e, (s', snd st ++ [Attempt (Some e)]))
    end.

#[global] Instance probe_runtime (St : Type) : Runtime (St * list probe_event) := {
  time_sleep d := fun st =>
    if d <? 0 then (Raised ValueError, st)
    else (Returned tt, (fst st, snd st ++ [Sleep d]));
  logger_warning _ := ret tt
}.

Fixpoint attempts_made (tr : list probe_event) : nat :=
  match tr with
  | [] => O
  | Attempt _ :: rest => S (attempts_made rest)
  | Sleep _ :: rest => attempts_made rest
  end.

Fixpoint sleeps_of (tr : list probe_event) : list Z :=
  match tr with
  | [] => []
  | Sleep d :: rest => d :: sleeps_of rest
  | Attempt _ :: rest => sleeps_of rest
  end.

(** The trace of failed attempts number [i], [i+1], ... raising [errs], each
    but the last followed by its backoff sleep. *)
Fixpoint exhausted_trace (backoff i : Z) (errs : list exn) : list probe_event :=
  match errs with
  | [] => []
  | [e] => [Attempt (Some e)]
  | e :: rest => Attempt (Some e) :: Sleep (backoff * i) :: exhausted_trace backoff (i + 1) rest
  end.

(** The same with a sleep after every failed attempt. *)
Fixpoint failed_trace (backoff i : Z) (errs : list exn) : list probe_event :=
  match errs with
  | [] => []
  | e :: rest => Attempt (Some e) :: Sleep (backoff * i) :: failed_trace backoff (i + 1) rest
  end.

(** [backoff * i] for [i = first, ..., first + n - 1]. *)
Fixpoint linear_backoffs (backoff first : Z) (n : nat) : list Z :=
  match n with
  | O => []
  | S n' => backoff * first :: linear_backoffs backoff (first + 1) n'
  end.

(** The outcomes of [n] successive invocations of [fn] from state [s], and
    the state they leave. *)
Fixpoint invocations {St A} (fn : M St A) (n : nat) (s : St) : list (outcome A) * St :=
  match n with
  | O => ([], s)
  | S n' =>
      let (r, s') := fn s in
      let (rs, s'') := invocations fn n' s' in
      (r :: rs, s'')
  end.

(** ** The environment's choices and the skip condition *)

(** The failure, if any, that the environment has in store for the [i]-th
    client call from now ([i = 0] is the next call). *)
Definition fault_at (i : nat) (w : world) : option string :=
  match faults w !! i with
  | Some (Some tag) => Some tag
  | _ => None
  end.

(** The skip condition of the gate as it is meant: an object is stored
    under [key] and its size is the size hint. *)
Definition same_size_stored (key : str) (s3_size : option Z) (w : world) : Prop :=
  exists content : bytes,
    gcs_objects w !! key = Some content /\ s3_size = Some (Z.of_nat (length content)).

(** ** The event, field by field *)

Definition event_record (event : pyval) : outcome pyval :=
  outcome_bind (subscript event "Records") subscript0.

(** [event["Records"][0]["s3"]["bucket"]["name"]]. *)
Definition event_bucket_name (event : pyval) : outcome pyval :=
  outcome_bind (event_record event) (fun record =>
  outcome_bind (subscript record "s3") (fun s3 =>
  outcome_bind (subscript s3 "bucket") (fun bucket =>
  subscript bucket "name"))).

(** [event["Records"][0]["s3"]["object"]["key"]]. *)
Definition event_raw_key (event : pyval) : outcome pyval :=
  outcome_bind (event_record event) (fun record =>
  outcome_bind (subscript record "s3") (fun s3 =>
  outcome_bind (subscript s3 "object") (fun object =>
  subscript object "key"))).

(** Both fields can be read and the key is a string. *)
Definition has_fields (event : pyval) : Prop :=
  exists (name : pyval) (raw : str),
    event_bucket_name event = Returned name /\ event_raw_key event = Returned (PStr raw).

(** The failure the handler reports for an event it cannot read: the
    exception of the lookup, re-raised after "Invalid event format" was
    logged. *)
Definition classified_malformed (res : outcome response * world) : Prop :=
  exists e : exn, fst res = Raised e /\ last (logged (snd res)) = Some (InvalidEventFormat e).

(** A storage notification with the two fields the handler reads. *)
Definition s3_event (name key : pyval) : pyval :=
  PDict [(py "Records",
          PList [PDict [(py "s3",
                         PDict [(py "bucket", PDict [(py "name", name)]);
                                (py "object", PDict [(py "key", key)])])]])].

(** ** Credentials *)

(** [cfg] with another value for [GCP_SA_KEY_B64]. *)
Definition with_encoded_key (b64 : option str) (cfg : config) : config :=
  Config (GCS_BUCKET cfg) (GCP_SA_KEY cfg) b64 (RETRY_ATTEMPTS cfg) (RETRY_BACKOFF cfg).

(** ** Framing *)

(** From [w] to [w'] the source store is the same, no stream has disappeared
    and the streams selected by [keep] are as they were. *)
Definition keeps (keep : nat -> Prop) (w w' : world) : Prop :=
  s3_objects w' = s3_objects w
  /\ (length (streams w) <= length (streams w'))%nat
  /\ forall j : nat, keep j -> (j < length (streams w))%nat ->
                     streams w' !! j = streams w !! j.

(** ** Checking one encoded character *)


(** ** Requests to the endpoint *)

(** The body is a JSON object. *)
Definition json_object (req : request) : Prop :=
  exists items : list (str * pyval), request_json req = Some (PDict items).

(** The body is a JSON object in which [s3_bucket] and [s3_key] are present
    with the true values [s3_bucket] and [s3_key]. *)
Definition names_object (req : request) (s3_bucket s3_key : pyval) : Prop :=
  exists items : list (str * pyval),
    request_json req = Some (PDict items)
    /\ dict_get items (py "s3_bucket") = Some s3_bucket
    /\ dict_get items (py "s3_key") = Some s3_key
    /\ py_bool s3_bucket = true /\ py_bool s3_key = true.

(** The answer the endpoint gives for an exception: status 500 and the text
    of the exception. *)
Definition error_answer `{ExceptionText} (e : exn) : endpoint_result :=
  JSONResponse 500 (PDict [(py "error", PStr (exception_str e))]).

(** ** More framing *)

(** A step that neither sleeps nor opens a stream of either kind. *)
Definition same_counts (w w' : world) : Prop :=
  slept w' = slept w
  /\ length (streams w') = length (streams w)
  /\ length (writers w') = length (writers w).

(** A step that stores nothing and leaves write stream [fid] aimed at the
    key it was opened for. *)
Definition writer_kept (fid : nat) (w w' : world) : Prop :=
  gcs_objects w' = gcs_objects w
  /\ forall wr : writer_state,
       writers w !! fid = Some wr ->
       exists wr' : writer_state, writers w' !! fid = Some wr' /\ target wr' = target wr.

(** From [w] to [w'] the destination is the same except perhaps under
    [key]. *)
Definition only_key_written (key : str) (w w' : world) : Prop :=
  forall k : str, k <> key -> gcs_objects w' !! k = gcs_objects w !! k.

(** What one upload attempt may do to the world, whatever its outcome: it
    does not sleep, opens at most one stream of each kind, and stores nothing
    except under [key]. *)
Definition attempt_effects (key : str) (w w' : world) : Prop :=
  slept w' = slept w
  /\ (length (streams w) <= length (streams w') <= S (length (streams w)))%nat
  /\ (length (writers w) <= length (writers w') <= S (length (writers w)))%nat
  /\ only_key_written key w w'.

(** ** Credentials, again *)

(** The secret [init_gcs_client] settles on: the raw variable when it is set
    and not empty, else the decoded variable, if it decodes. *)
Definition chosen_secret `{Libraries} (cfg : config) : option str :=
  if truthy (GCP_SA_KEY cfg) then Some (env_value (GCP_SA_KEY cfg))
  else if truthy (GCP_SA_KEY_B64 cfg) then b64decode_utf8 (env_value (GCP_SA_KEY_B64 cfg))
  else None.

(** An event made of its list of records. *)
Definition records_event (records : list pyval) : pyval :=
  PDict [(py "Records", PList records)].

(** One record of a storage notification. *)
Definition s3_record (name key : pyval) : pyval :=
  PDict [(py "s3",
          PDict [(py "bucket", PDict [(py "name", name)]);
                 (py "object", PDict [(py "key", key)])])].

(** * Example inputs *)

(** An attempt function that always raises, counting its invocations. *)
Definition always_failing : M nat bool :=
  fun n => (Raised (EnvError "unavailable"), S n).

(** An attempt function that raises twice and then returns. *)
Definition succeeds_third : M nat Z :=
  fun n =>
    if (n <? 2)%nat then (Raised (EnvError "unavailable"), S n)
    else (Returned 42, S n).

(** Libraries for the examples: nothing decodes as base64, every non-empty
    key file is accepted.  The secret of the examples is a placeholder. *)
Definition example_libraries : Libraries := {|
  b64decode_utf8 := fun _ => None;
  service_account_ok := fun content => negb (bool_decide (content = []))
|}.

Definition example_body : bytes := [Byte.x68; Byte.x65; Byte.x6c; Byte.x6c; Byte.x6f].

(** One source object, an empty destination, no injected failure. *)
Definition example_world : world :=
  World {[ (py "photos", py "my file+name.txt") := S3Object example_body (Some 5) ]}
        ∅ ∅ [] [] [] [] [] [].

Definition example_config : config :=
  Config (Some (py "replica")) (Some (py "service-account-key")) None 3 2.

Definition example_event : pyval :=
  s3_event (PStr (py "photos")) (PStr (py "my%20file%2Bname.txt")).

(** An event without [object]. *)
Definition event_without_key : pyval :=
  PDict [(py "Records",
          PList [PDict [(py "s3",
                         PDict [(py "bucket", PDict [(py "name", PStr (py "photos"))])])]])].

(** An event whose container name is a number. *)
Definition event_with_numeric_name : pyval :=
  s3_event (PInt 5) (PStr (py "my%20file%2Bname.txt")).

(** Both credential variables set. *)
Definition config_with_both : config :=
  Config (Some (py "replica")) (Some (py "service-account-key")) (Some (py "e30=")) 3 2.

(** Neither credential variable set. *)
Definition config_without_key : config :=
  Config (Some (py "replica")) None (Some []) 3 2.

(** The destination handle of the examples. *)
Definition example_bucket : gcs_bucket :=
  client_bucket (GcsClient (py "service-account-key")) (Some (py "replica")).

(** A world with one open source stream whose next reads deliver two bytes,
    then one byte, then whatever is asked for. *)
Definition world_with_stream : world :=
  World ∅ ∅ ∅ [Stream example_body false] [] [] [] [] [2%positive; 1%positive].

(** [example_world] after the handler has replicated [example_event]. *)
Definition replicated_world : world :=
  snd (lambda_handler (libs := example_libraries) example_config example_event example_world).

(** [replicated_world] once the client and the source stream of a second
    invocation are there. *)
Definition replicated_world_client : world :=
  snd (init_gcs_client (libs := example_libraries) example_config replicated_world).

Definition replicated_world_stream : world :=
  snd (s3_get_object_stream (PStr (py "photos")) (py "my file+name.txt")
         replicated_world_client).

(** [example_world] where the seventh client call, the first [read] of the
    first upload attempt, fails. *)
Definition world_with_read_failure : world :=
  set_faults (fun _ => [None; None; None; None; None; None; Some "ReadTimeoutError"])
             example_world.

(** Exception texts for the examples: the text is not looked at. *)
Definition example_texts : ExceptionText := {|
  exception_str := fun _ => py "error"
|}.

(** A console whose codec is UTF-8 with strict error handling.  A line
    cannot be encoded exactly when it holds a surrogate code point, which is
    when one of the two values is a string that holds one: inside lists and
    dicts strings are printed by [repr], which escapes them. *)
Definition surrogate (c : N) : bool := (55296 <=? c)%N && (c <=? 57343)%N.

Definition holds_surrogate (v : pyval) : bool :=
  match v with
  | PStr s => existsb surrogate s
  | _ => false
  end.

Definition utf8_console : Console := {|
  print_failure := fun s3_bucket s3_key =>
    if holds_surrogate s3_bucket || holds_surrogate s3_key
    then Some (EnvError "UnicodeEncodeError")
    else None
|}.

(** A request naming a bucket and a percent-encoded key. *)
Definition example_request : request :=
  Request (Some (PDict [(py "s3_bucket", PStr (py "photos"));
                        (py "s3_key", PStr (py "my%20file%2Bname.txt"))])).

(** Libraries that decode every encoded secret to the same placeholder. *)
Definition decoding_libraries : Libraries := {|
  b64decode_utf8 := fun _ => Some (py "decoded-service-account-key");
  service_account_ok := fun content => negb (bool_decide (content = []))
|}.

(** The raw variable set but empty, the encoded one set. *)
Definition config_with_encoded_key : config :=
  Config (Some (py "replica")) (Some []) (Some (py "ZGVjb2RlZA==")) 3 2.

(** No attempt allowed. *)
Definition config_without_attempts : config :=
  Config (Some (py "replica")) (Some (py "service-account-key")) None 0 2.

(** [example_world] with, under the key, five bytes that are not the bytes
    of the source object. *)
Definition stale_body : bytes := [Byte.x73; Byte.x74; Byte.x61; Byte.x6c; Byte.x65].

Definition world_with_stale_copy : world :=
  set_gcs_objects (fun m => <[py "my file+name.txt" := stale_body]> m) example_world.

(** A request whose key is one lone surrogate, the JSON string [\ud800]. *)
Definition request_with_surrogate : request :=
  Request (Some (PDict [(py "s3_bucket", PStr (py "photos")); (py "s3_key", PStr [55296%N])])).

(** A notification with two records. *)
Definition event_with_two_records : pyval :=
  records_event [s3_record (PStr (py "photos")) (PStr (py "my%20file%2Bname.txt"));
                 s3_record (PStr (py "photos")) (PStr (py "other.txt"))].

(** * Properties *)

(** ** The retry loop *)

Section RetryFacts.
Context {St A : Type} (fn : M St A) (attempts backoff : Z).

Lemma exhausted_trace_cons (i : Z) (e e' : exn) (errs : list exn) :
  exhausted_trace backoff i (e :: e' :: errs)
  = Attempt (Some e) :: Sleep (backoff * i) :: exhausted_trace backoff (i + 1) (e' :: errs).
Proof. reflexivity. Qed.

Lemma attempts_made_app (t1 t2 : list probe_event) :
  attempts_made (t1 ++ t2) = (attempts_made t1 + attempts_made t2)%nat.
Proof.
  induction t1 as [|[r|d] t1 IH]; simpl; [done|by rewrite IH|done].
Qed.

Lemma sleeps_of_app (t1 t2 : list probe_event) :
  sleeps_of (t1 ++ t2) = sleeps_of t1 ++ sleeps_of t2.
Proof.
  induction t1 as [|[r|d] t1 IH]; simpl; [done| done |by rewrite IH].
Qed.

Lemma attempts_made_exhausted (i : Z) (errs : list exn) :
  attempts_made (exhausted_trace backoff i errs) = length errs.
Proof.
  revert i. induction errs as [|e [|e' errs] IH]; intros i; [done..|].
  rewrite exhausted_trace_cons. cbn [attempts_made]. by rewrite IH.
Qed.

Lemma sleeps_of_exhausted (i : Z) (errs : list exn) :
  sleeps_of (exhausted_trace backoff i errs) = linear_backoffs backoff i (length errs - 1).
Proof.
  revert i. induction errs as [|e [|e' errs] IH]; intros i; [done..|].
  rewrite exhausted_trace_cons. cbn [sleeps_of]. rewrite IH.
  cbn [length]. replace (S (S (length errs)) - 1)%nat with (S (S (length errs) - 1)) by lia.
  reflexivity.
Qed.

Lemma attempts_made_failed (i : Z) (errs : list exn) :
  attempts_made (failed_trace backoff i errs) = length errs.
Proof.
  revert i. induction errs as [|e errs IH]; intros i; [done|].
  cbn [failed_trace attempts_made length]. by rewrite IH.
Qed.

Lemma sleeps_of_failed (i : Z) (errs : list exn) :
  sleeps_of (failed_trace backoff i errs) = linear_backoffs backoff i (length errs).
Proof.
  revert i. induction errs as [|e errs IH]; intros i; [done|].
  cbn [failed_trace length sleeps_of linear_backoffs]. by rewrite IH.
Qed.

Lemma invocations_S (n : nat) (s : St) :
  invocations fn (S n) s
  = let (r, s') := fn s in
    let (rs, s'') := invocations fn n s' in (r :: rs, s'').
Proof. reflexivity. Qed.

(** The loop from iteration [i] on when every attempt raises. *)
Lemma retry_from_exhausted :
  0 <= backoff ->
  (forall s, exists e s', fn s = (Raised e, s')) ->
  forall (todo : nat) (i : Z) (last_exc : option exn) (s : St) (tr : list probe_event),
    0 <= i -> i + Z.of_nat (S todo) = attempts ->
    exists errs e s',
      retry_from (probe fn) attempts backoff (S todo) i last_exc (s, tr)
      = (Raised e, (s', tr ++ exhausted_trace backoff (i + 1) errs))
      /\ length errs = S todo /\ last errs = Some e.
Proof.
  intros Hb Hfail todo.
  induction todo as [|todo IH]; intros i last_exc s tr Hi Hsum.
  - destruct (Hfail s) as (e & s' & Hfn).
    exists [e], e, s'. split; [|done].
    cbn [retry_from]. unfold try_except, probe. cbn [fst snd]. rewrite Hfn.
    unfold bind; cbn.
    replace (i <? attempts - 1) with false by (symmetry; apply Z.ltb_ge; lia).
    reflexivity.
  - destruct (Hfail s) as (e & s' & Hfn).
    destruct (IH (i + 1) (Some e) s' (tr ++ [Attempt (Some e)] ++ [Sleep (backoff * (i + 1))]))
      as (errs & e' & s'' & Hrun & Hlen & Hlast); [lia | lia |].
    exists (e :: errs), e', s''. split; [|split].
    + remember (S todo) as n eqn:Hn.
      cbn [retry_from]. unfold try_except at 1, probe at 1. cbn [fst snd]. rewrite Hfn.
      unfold bind at 1 2; cbn [logger_warning probe_runtime ret].
      replace (i <? attempts - 1) with true by (symmetry; apply Z.ltb_lt; lia).
      cbn [time_sleep probe_runtime].
      replace (backoff * (i + 1) <? 0) with false by (symmetry; apply Z.ltb_ge; nia).
      cbn [fst snd]. rewrite <- app_assoc. rewrite Hrun.
      destruct errs as [|e1 errs]; [simpl in Hlen; lia|].
      rewrite exhausted_trace_cons. by rewrite <- !app_assoc.
    + simpl. lia.
    + destruct errs; [simpl in Hlen; lia|]. done.
Qed.

(** The loop when the first failures are followed by a success. *)
Lemma retry_from_first_success (v : A) :
  0 <= backoff ->
  forall (errs : list exn) (todo : nat) (i : Z) (last_exc : option exn)
         (s s' : St) (tr : list probe_event),
    0 <= i -> (length errs < todo)%nat -> i + Z.of_nat todo = attempts ->
    invocations fn (S (length errs)) s = (map Raised errs ++ [Returned v], s') ->
    retry_from (probe fn) attempts backoff todo i last_exc (s, tr)
    = (Returned v, (s', tr ++ failed_trace backoff (i + 1) errs ++ [Attempt None])).
Proof.
  intros Hb errs.
  induction errs as [|e errs IH]; intros todo i last_exc s s' tr Hi Hlt Hsum Hinv.
  - destruct todo as [|todo]; [simpl in Hlt; lia|].
    cbn [length invocations] in Hinv. destruct (fn s) as [r s1] eqn:Hfn.
    cbn in Hinv. injection Hinv as -> ->.
    cbn [retry_from]. unfold try_except, probe. cbn [fst snd]. by rewrite Hfn.
  - destruct todo as [|todo]; [simpl in Hlt; lia|].
    cbn [length] in Hinv. rewrite invocations_S in Hinv.
    destruct (fn s) as [r s1] eqn:Hfn.
    destruct (invocations fn (S (length errs)) s1) as [rs s2] eqn:Hrest.
    cbn in Hinv. injection Hinv as -> -> ->.
    cbn [retry_from]. unfold try_except at 1, probe at 1. cbn [fst snd]. rewrite Hfn.
    unfold bind at 1 2; cbn [logger_warning probe_runtime ret].
    simpl in Hlt.
    replace (i <? attempts - 1) with true by (symmetry; apply Z.ltb_lt; lia).
    cbn [time_sleep probe_runtime].
    replace (backoff * (i + 1) <? 0) with false by (symmetry; apply Z.ltb_ge; nia).
    cbn [fst snd].
    rewrite (IH todo (i + 1) (Some e) s1 s'); [|lia|lia|lia|done].
    cbn [failed_trace]. by rewrite <- !app_assoc.
Qed.

End RetryFacts.

Lemma invocations_length {St A} (fn : M St A) (n : nat) (s : St) :
  length (fst (invocations fn n s)) = n.
Proof.
  revert s. induction n as [|n IH]; intros s; [done|].
  rewrite invocations_S. destruct (fn s) as [r s1].
  specialize (IH s1). destruct (invocations fn n s1) as [rs s2].
  simpl in *. by rewrite IH.
Qed.

(** C2: when the attempt function raises on every invocation, [retry_fn]
    with [attempts >= 1] invokes it exactly [attempts] times, sleeps
    [backoff * i] right after failed attempt [i] for every [i < attempts] and
    at no other point, and raises the error of the last attempt.  The trace
    [exhausted_trace backoff 1 errs] lists the attempts with the errors [errs]
    they raised and the sleeps between them. *)
Theorem retry_fn_exhaustion {St A} (fn : M St A) (attempts backoff : Z) (s : St) :
  1 <= attempts -> 0 <= backoff ->
  (forall s0, exists e s1, fn s0 = (Raised e, s1)) ->
  exists (errs : list exn) (e : exn) (s' : St),
    retry_fn (probe fn) attempts backoff (s, [])
    = (Raised e, (s', exhausted_trace backoff 1 errs))
    /\ last errs = Some e
    /\ attempts_made (exhausted_trace backoff 1 errs) = Z.to_nat attempts
    /\ sleeps_of (exhausted_trace backoff 1 errs)
       = linear_backoffs backoff 1 (Z.to_nat attempts - 1).
Proof.
  intros Ha Hb Hfail. unfold retry_fn.
  destruct (Z.to_nat attempts) as [|todo] eqn:Htodo; [lia|].
  destruct (retry_from_exhausted fn attempts backoff Hb Hfail todo 0 None s [])
    as (errs & e & s' & Hrun & Hlen & Hlast); [lia | lia |].
  exists errs, e, s'. split; [exact Hrun|]. split; [exact Hlast|].
  rewrite attempts_made_exhausted, sleeps_of_exhausted, Hlen. split; [done|].
  f_equal.
Qed.

Lemma retry_fn_exhaustion_witness :
  exists (errs : list exn) (e : exn) (s' : nat),
    retry_fn (probe always_failing) 3 2 (O, [])
    = (Raised e, (s', exhausted_trace 2 1 errs))
    /\ last errs = Some e
    /\ attempts_made (exhausted_trace 2 1 errs) = Z.to_nat 3
    /\ sleeps_of (exhausted_trace 2 1 errs) = linear_backoffs 2 1 (Z.to_nat 3 - 1).
Proof.
  apply (retry_fn_exhaustion always_failing 3 2 O); [lia | lia |].
  intros s0. exists (EnvError "unavailable"), (S s0). reflexivity.
Defined.

(** A negative backoff unit is not a duration: [time.sleep] raises on it, so
    the first backoff ends the loop with [ValueError]. *)
Lemma retry_fn_negative_backoff {St A} (fn : M St A) (attempts backoff : Z)
      (s s' : St) (e : exn) :
  2 <= attempts -> backoff < 0 ->
  fn s = (Raised e, s') ->
  retry_fn (probe fn) attempts backoff (s, []) = (Raised ValueError, (s', [Attempt (Some e)])).
Proof.
  intros Ha Hb Hfn. unfold retry_fn.
  destruct (Z.to_nat attempts) as [|todo] eqn:Htodo; [lia|].
  cbn [retry_from]. unfold try_except, probe. cbn [fst snd]. rewrite Hfn.
  unfold bind; cbn [logger_warning probe_runtime ret].
  replace (0 <? attempts - 1) with true by (symmetry; apply Z.ltb_lt; lia).
  cbn [time_sleep probe_runtime].
  replace (backoff * (0 + 1) <? 0) with true by (symmetry; apply Z.ltb_lt; lia).
  reflexivity.
Qed.

(** C9: when the attempt function first returns on invocation [k <= attempts]
    (the [k - 1] invocations before it raise [errs]), [retry_fn] invokes it
    exactly [k] times, the successful invocation is the last event (no sleep
    follows it), and the value it returned is the result. *)
Theorem retry_fn_first_success {St A} (fn : M St A) (attempts backoff : Z)
        (k : nat) (errs : list exn) (v : A) (s s' : St) :
  1 <= attempts -> 0 <= backoff -> Z.of_nat k <= attempts ->
  invocations fn k s = (map Raised errs ++ [Returned v], s') ->
  exists tr : list probe_event,
    retry_fn (probe fn) attempts backoff (s, []) = (Returned v, (s', tr))
    /\ tr = failed_trace backoff 1 errs ++ [Attempt None]
    /\ attempts_made tr = k
    /\ last tr = Some (Attempt None)
    /\ sleeps_of tr = linear_backoffs backoff 1 (k - 1).
Proof.
  intros Ha Hb Hk Hinv.
  assert (Hlen : k = S (length errs)).
  { pose proof (invocations_length fn k s) as Hl. rewrite Hinv in Hl.
    simpl in Hl. rewrite length_app, length_map in Hl. simpl in Hl. lia. }
  subst k. eexists. split; [|split; [reflexivity|]].
  - unfold retry_fn.
    apply (retry_from_first_success fn attempts backoff v Hb errs); [lia|lia|lia|exact Hinv].
  - rewrite attempts_made_app, attempts_made_failed, last_snoc.
    rewrite sleeps_of_app, sleeps_of_failed. simpl.
    rewrite app_nil_r. replace (length errs - 0)%nat with (length errs) by lia.
    split; [lia|done].
Qed.

Lemma retry_fn_first_success_witness :
  exists tr : list probe_event,
    retry_fn (probe succeeds_third) 5 2 (O, []) = (Returned 42, (3%nat, tr))
    /\ tr = failed_trace 2 1 [EnvError "unavailable"; EnvError "unavailable"] ++ [Attempt None]
    /\ attempts_made tr = 3%nat
    /\ last tr = Some (Attempt None)
    /\ sleeps_of tr = linear_backoffs 2 1 (3 - 1).
Proof.
  apply (retry_fn_first_success succeeds_third 5 2 3
           [EnvError "unavailable"; EnvError "unavailable"] 42 O 3%nat);
    [lia | lia | lia | reflexivity].
Defined.

(** ** The client operations *)

Lemma env_call_state (w : world) : snd (env_call w) = set_faults (drop 1) w.
Proof. unfold env_call. by destruct (faults w) as [|[e|] l]. Qed.

Lemma env_call_quiet (w : world) :
  faults w = [] -> env_call w = (Returned tt, set_faults (drop 1) w).
Proof. unfold env_call. by intros ->. Qed.

Lemma env_call_returned (w w' : world) (u : unit) :
  env_call w = (Returned u, w') -> w' = set_faults (drop 1) w.
Proof. intros Hc. pose proof (env_call_state w) as Hs. by rewrite Hc in Hs. Qed.

(** Running [m] after the environment check. *)
Lemma after_env_call {A} (m : M world A) (w : world) :
  (env_call ;; m) w
  = match env_call w with
    | (Returned _, _) => m (set_faults (drop 1) w)
    | (Raised e, _) => (Raised e, set_faults (drop 1) w)
    end.
Proof.
  unfold bind. pose proof (env_call_state w) as Hs.
  destruct (env_call w) as [[u|e] w1]; simpl in Hs; by subst.
Qed.

Lemma split_at_app (amt : Z) (data : bytes) :
  fst (split_at amt data) ++ snd (split_at amt data) = data.
Proof.
  revert amt. induction data as [|x data IH]; intros amt; [done|].
  simpl. destruct (amt <=? 0); [done|].
  specialize (IH (amt - 1)). destruct (split_at (amt - 1) data). simpl in *. by rewrite IH.
Qed.

Lemma split_at_nil (amt : Z) (data : bytes) :
  0 < amt -> fst (split_at amt data) = [] -> data = [].
Proof.
  intros Hpos. destruct data as [|x data]; [done|].
  simpl. destruct (amt <=? 0) eqn:Hle; [apply Z.leb_le in Hle; lia|].
  by destruct (split_at (amt - 1) data).
Qed.

Lemma split_at_length (amt : Z) (data : bytes) :
  0 <= amt -> Z.of_nat (length (fst (split_at amt data))) = Z.min amt (Z.of_nat (length data)).
Proof.
  revert amt. induction data as [|x data IH]; intros amt Hamt; [simpl; lia|].
  simpl. destruct (amt <=? 0) eqn:Hle.
  - apply Z.leb_le in Hle. simpl. lia.
  - apply Z.leb_gt in Hle. specialize (IH (amt - 1)).
    destruct (split_at (amt - 1) data). simpl in *. lia.
Qed.

(** What a [read] that returns has done. *)
Lemma stream_read_returned (sid : nat) (amt : Z) (w w' : world) (chunk : bytes) :
  0 < amt ->
  stream_read sid amt w = (Returned chunk, w') ->
  exists rest : bytes,
    streams w !! sid = Some (Stream (chunk ++ rest) false)
    /\ (chunk = [] -> rest = [])
    /\ Z.of_nat (length chunk) <= amt
    /\ w' = set_short_reads (drop 1)
              (set_streams (fun l => <[sid := Stream rest false]> l)
                 (set_faults (drop 1) w)).
Proof.
  intros Hamt. unfold stream_read. rewrite after_env_call.
  destruct (env_call w) as [[u|e] w1]; [|done].
  cbn [streams set_faults].
  destruct (streams w !! sid) as [[data [|]]|] eqn:Hs; [done| |done].
  cbn [short_reads set_faults].
  set (cap := match short_reads w with p :: _ => Z.min amt (Z.pos p) | [] => amt end).
  assert (Hcap : 0 < cap <= amt) by (subst cap; destruct (short_reads w); lia).
  pose proof (split_at_app cap data) as Happ.
  pose proof (split_at_nil cap data (proj1 Hcap)) as Hnil.
  pose proof (split_at_length cap data ltac:(lia)) as Hlen.
  destruct (split_at cap data) as [c r]. simpl in Happ, Hnil, Hlen.
  intros [= <- <-]. exists r. subst data.
  split; [done|]. split; [|split; [lia|done]].
  intros ->. specialize (Hnil eq_refl). by simpl in Hnil.
Qed.

Lemma writer_write_returned (fid : nat) (chunk : bytes) (w w' : world) (u : unit) :
  writer_write fid chunk w = (Returned u, w') ->
  exists (key : str) (buf : bytes),
    writers w !! fid = Some (Writer key buf false)
    /\ w' = set_writers (fun l => <[fid := Writer key (buf ++ chunk) false]> l)
              (set_faults (drop 1) w).
Proof.
  unfold writer_write. rewrite after_env_call.
  destruct (env_call w) as [[u'|e] w1]; [|done].
  cbn [writers set_faults].
  destruct (writers w !! fid) as [[key buf [|]]|] eqn:Hw; [done| |done].
  intros [= <-]. by exists key, buf.
Qed.

Lemma writer_close_returned (fid : nat) (w w' : world) (u : unit) (key : str) (buf : bytes) :
  writers w !! fid = Some (Writer key buf false) ->
  writer_close fid w = (Returned u, w') ->
  w' = set_gcs_objects (fun m => <[key := buf]> m)
         (set_writers (fun l => <[fid := Writer key buf true]> l)
            (set_faults (drop 1) w)).
Proof.
  intros Hw. unfold writer_close. rewrite after_env_call.
  destruct (env_call w) as [[u'|e] w1]; [|done].
  cbn [writers set_faults]. rewrite Hw. by intros [= <-].
Qed.

Lemma blob_open_returned (blob : gcs_blob) (w w' : world) (fid : nat) :
  blob_open blob w = (Returned fid, w') ->
  fid = length (writers w)
  /\ w' = set_writers (fun l => l ++ [Writer (blob_name blob) [] false])
            (set_faults (drop 1) w).
Proof.
  unfold blob_open. rewrite after_env_call.
  destruct (env_call w) as [[u'|e] w1]; [|done].
  cbn [writers set_faults]. by intros [= <- <-].
Qed.

(** ** The chunked copy *)

Lemma chunk_size_pos : 0 < chunk_size.
Proof. reflexivity. Qed.

(** The loop invariant: what is already in the write buffer followed by what
    is still pending on the stream is the data the copy started from. *)
Lemma copy_chunks_returned (fuel f sid : nat) :
  forall (w w' : world) (key : str) (buf data : bytes) (c : bool),
    writers w !! f = Some (Writer key buf false) ->
    streams w !! sid = Some (Stream data c) ->
    (length data < fuel)%nat ->
    copy_chunks fuel f sid w = (Returned tt, w') ->
    writers w' = <[f := Writer key (buf ++ data) false]> (writers w)
    /\ streams w' = <[sid := Stream [] false]> (streams w)
    /\ gcs_objects w' = gcs_objects w
    /\ s3_objects w' = s3_objects w.
Proof.
  induction fuel as [|fuel IH]; intros w w' key buf data c Hw Hs Hfuel; [lia|].
  cbn [copy_chunks]. unfold bind at 1.
  destruct (stream_read sid chunk_size w) as [[chunk|e] w1] eqn:Hread; [|done].
  apply stream_read_returned in Hread as (rest & Hs' & Hnil & _ & ->); [|apply chunk_size_pos].
  rewrite Hs in Hs'. injection Hs' as -> ->.
  destruct chunk as [|x chunk].
  - rewrite (Hnil eq_refl). intros [= <-]. cbn.
    rewrite app_nil_r. by rewrite (list_insert_id _ _ _ Hw).
  - unfold bind at 1.
    match goal with |- context [writer_write f ?ch ?w0] =>
      destruct (writer_write f ch w0) as [[u|e] w2] eqn:Hwrite; [|done] end.
    apply writer_write_returned in Hwrite as (key' & buf' & Hw' & ->).
    cbn in Hw'. rewrite Hw in Hw'. injection Hw' as <- <-.
    intros Hrun.
    eapply (IH _ _ key (buf ++ x :: chunk) rest false) in Hrun.
    + destruct Hrun as (Hwr & Hst & Hg & Hs3). cbn in Hwr, Hst, Hg, Hs3.
      rewrite list_insert_insert_eq in Hwr. rewrite list_insert_insert_eq in Hst.
      by rewrite <- app_assoc in Hwr.
    + cbn. apply list_lookup_insert_eq. by eapply lookup_lt_Some.
    + cbn. apply list_lookup_insert_eq. by eapply lookup_lt_Some.
    + rewrite length_app in Hfuel. simpl in Hfuel. lia.
Qed.

Lemma stream_read_quiet (sid : nat) (amt : Z) (w : world) (data : bytes) :
  faults w = [] ->
  streams w !! sid = Some (Stream data false) ->
  exists (chunk rest : bytes) (w' : world),
    stream_read sid amt w = (Returned chunk, w')
    /\ faults w' = [] /\ writers w' = writers w.
Proof.
  intros Hf Hs. unfold stream_read. rewrite after_env_call, (env_call_quiet w Hf).
  cbn [streams set_faults short_reads]. rewrite Hs.
  destruct (split_at _ data) as [chunk rest].
  eexists chunk, rest, _. split; [reflexivity|]. cbn. by rewrite Hf.
Qed.

Lemma writer_write_quiet (fid : nat) (chunk : bytes) (w : world) (key : str) (buf : bytes) :
  faults w = [] ->
  writers w !! fid = Some (Writer key buf false) ->
  exists w' : world,
    writer_write fid chunk w = (Returned tt, w')
    /\ faults w' = [] /\ streams w' = streams w.
Proof.
  intros Hf Hw. unfold writer_write. rewrite after_env_call, (env_call_quiet w Hf).
  cbn [writers set_faults]. rewrite Hw.
  eexists. split; [reflexivity|]. cbn. by rewrite Hf.
Qed.

(** Without injected failures the loop runs to the end of the stream. *)
Lemma copy_chunks_quiet (fuel f sid : nat) :
  forall (w : world) (key : str) (buf data : bytes),
    faults w = [] ->
    writers w !! f = Some (Writer key buf false) ->
    streams w !! sid = Some (Stream data false) ->
    (length data < fuel)%nat ->
    exists w' : world, copy_chunks fuel f sid w = (Returned tt, w') /\ faults w' = [].
Proof.
  induction fuel as [|fuel IH]; intros w key buf data Hf Hw Hs Hfuel; [lia|].
  cbn [copy_chunks]. unfold bind at 1.
  destruct (stream_read_quiet sid chunk_size w data Hf Hs)
    as (chunk & rest & w1 & Hread & Hf1 & Hw1).
  rewrite Hread.
  apply stream_read_returned in Hread as (rest' & Hs' & Hnil & _ & Hw1eq);
    [|apply chunk_size_pos].
  rewrite Hs in Hs'. injection Hs' as ->.
  destruct chunk as [|x chunk]; [by exists w1|].
  unfold bind at 1.
  assert (Hw1' : writers w1 !! f = Some (Writer key buf false)) by (by rewrite Hw1).
  destruct (writer_write_quiet f (x :: chunk) w1 key buf Hf1 Hw1')
    as (w2 & Hwrite & Hf2 & Hst2).
  rewrite Hwrite.
  apply writer_write_returned in Hwrite as (key' & buf' & Hw' & Hw2eq).
  rewrite Hw1' in Hw'. injection Hw' as <- <-.
  apply (IH w2 key (buf ++ x :: chunk) rest'); [done| | |].
  - subst w2. cbn. apply list_lookup_insert_eq. by eapply lookup_lt_Some.
  - rewrite Hst2. subst w1. cbn. apply list_lookup_insert_eq. by eapply lookup_lt_Some.
  - rewrite length_app in Hfuel. simpl in Hfuel. lia.
Qed.

(** Fuel beyond the pending bytes makes no difference: the loop never runs
    out of it. *)
Lemma copy_chunks_fuel (f sid : nat) (fuel1 fuel2 : nat) :
  forall w : world,
    (pending_bytes sid w < fuel1)%nat -> (pending_bytes sid w < fuel2)%nat ->
    copy_chunks fuel1 f sid w = copy_chunks fuel2 f sid w.
Proof.
  revert fuel2. induction fuel1 as [|fuel1 IH]; intros [|fuel2] w H1 H2; try lia.
  cbn [copy_chunks]. unfold bind at 1 3.
  destruct (stream_read sid chunk_size w) as [[chunk|e] w1] eqn:Hread; [|done].
  apply stream_read_returned in Hread as (rest & Hs & _ & _ & Hw1); [|apply chunk_size_pos].
  destruct chunk as [|x chunk]; [done|].
  unfold bind at 1 2.
  destruct (writer_write f (x :: chunk) w1) as [[u|e] w2] eqn:Hwrite; [|done].
  apply writer_write_returned in Hwrite as (key & buf & _ & Hw2).
  assert (Hlt : (pending_bytes sid w2 < pending_bytes sid w)%nat).
  { unfold pending_bytes. subst w2 w1. cbn. rewrite Hs.
    rewrite list_lookup_insert_eq by (by eapply lookup_lt_Some).
    cbn. rewrite length_app. simpl. lia. }
  apply IH; lia.
Qed.

(** What a transfer that returns has done. *)
Lemma upload_stream_to_gcs_returned (bucket_obj : gcs_bucket) (key : str) (sid : nat)
      (w w' : world) (data : bytes) (c : bool) :
  streams w !! sid = Some (Stream data c) ->
  upload_stream_to_gcs bucket_obj key sid w = (Returned tt, w') ->
  gcs_objects w' !! key = Some data
  /\ writers w' !! length (writers w) = Some (Writer key data true)
  /\ (forall k : str, k <> key -> gcs_objects w' !! k = gcs_objects w !! k).
Proof.
  intros Hs. revert w'.
  intros w'. unfold upload_stream_to_gcs, with_blob_open. unfold bind at 1.
  destruct (blob_open _ w) as [[f|e] w1] eqn:Hopen; [|done].
  apply blob_open_returned in Hopen as [-> ->]. cbn [blob_name bucket_blob].
  match goal with |- context [copy_chunks ?n ?f ?s ?w0] =>
    destruct (copy_chunks n f s w0) as [[[]|e] w2] eqn:Hcopy end.
  + eapply (copy_chunks_returned _ _ _ _ _ key [] data c) in Hcopy;
      [| by cbn; rewrite lookup_app_r, Nat.sub_diag | by cbn
       | unfold pending_bytes; cbn; rewrite Hs; cbn; lia ].
    destruct Hcopy as (Hwr & Hst & Hg & Hs3). cbn in Hwr, Hst, Hg, Hs3.
    destruct (writer_close _ w2) as [[u|e] w3] eqn:Hclose; [|done].
    eapply writer_close_returned in Hclose;
      [| rewrite Hwr; apply list_lookup_insert_eq; rewrite length_app; simpl; lia ].
    intros [= <-]. subst w3. cbn. rewrite Hwr, Hg. split; [apply lookup_insert_eq|].
    split.
    * rewrite list_insert_insert_eq.
      rewrite list_lookup_insert_eq; [done|rewrite length_app; simpl; lia].
    * intros k Hk. by rewrite lookup_insert_ne.
  + by destruct (writer_close _ w2) as [[u|e'] w3].
Qed.

(** Without injected failures the transfer of an open stream returns. *)
Lemma upload_stream_to_gcs_quiet (bucket_obj : gcs_bucket) (key : str) (sid : nat)
      (w : world) (data : bytes) :
  streams w !! sid = Some (Stream data false) ->
  faults w = [] ->
  exists w' : world,
    upload_stream_to_gcs bucket_obj key sid w = (Returned tt, w') /\ faults w' = [].
Proof.
  intros Hs Hf.
  unfold upload_stream_to_gcs, with_blob_open. unfold bind at 1.
  unfold blob_open. rewrite after_env_call, (env_call_quiet w Hf).
  cbn [writers set_faults bucket_blob blob_name].
  match goal with |- context [copy_chunks ?n ?f ?s ?w0] =>
    destruct (copy_chunks_quiet n f s w0 key [] data) as (w2 & Hcopy & Hf2) end.
  - cbn. by rewrite Hf.
  - cbn. by rewrite lookup_app_r, Nat.sub_diag.
  - by cbn.
  - unfold pending_bytes; cbn; rewrite Hs; cbn; lia.
  - rewrite Hcopy.
    eapply (copy_chunks_returned _ _ _ _ _ key [] data false) in Hcopy;
      [| by cbn; rewrite lookup_app_r, Nat.sub_diag | by cbn
       | unfold pending_bytes; cbn; rewrite Hs; cbn; lia ].
    destruct Hcopy as (Hwr & _). cbn in Hwr.
    unfold writer_close. rewrite after_env_call, (env_call_quiet w2 Hf2).
    cbn [writers set_faults]. rewrite Hwr.
    rewrite list_lookup_insert_eq; [|rewrite length_app; simpl; lia].
    eexists. split; [reflexivity|]. cbn. by rewrite Hf2.
Qed.

(** C1: a transfer that succeeds leaves under the destination key exactly
    the bytes that were pending on the source stream when it started: the
    bytes handed to the write stream are those [n] bytes, in order, and they
    are what the destination holds once the write stream is closed.  Without
    injected failures the transfer of an open stream succeeds, whatever the
    size (zero included) and however the reads are cut into chunks. *)
Theorem upload_stream_to_gcs_copies (bucket_obj : gcs_bucket) (key : str) (sid : nat)
        (w : world) (data : bytes) (c : bool) :
  streams w !! sid = Some (Stream data c) ->
  (forall w' : world,
      upload_stream_to_gcs bucket_obj key sid w = (Returned tt, w') ->
      gcs_objects w' !! key = Some data
      /\ writers w' !! length (writers w) = Some (Writer key data true)
      /\ (forall k : str, k <> key -> gcs_objects w' !! k = gcs_objects w !! k))
  /\ (faults w = [] -> c = false ->
      exists w' : world, upload_stream_to_gcs bucket_obj key sid w = (Returned tt, w')).
Proof.
  intros Hs. split.
  - intros w' Hrun. by eapply upload_stream_to_gcs_returned.
  - intros Hf ->.
    destruct (upload_stream_to_gcs_quiet bucket_obj key sid w data Hs Hf) as (w' & Hrun & _).
    by exists w'.
Qed.

Lemma upload_stream_to_gcs_copies_witness :
  (forall w' : world,
      upload_stream_to_gcs example_bucket (py "my file+name.txt") 0 world_with_stream
      = (Returned tt, w') ->
      gcs_objects w' !! py "my file+name.txt" = Some example_body
      /\ writers w' !! length (writers world_with_stream)
         = Some (Writer (py "my file+name.txt") example_body true)
      /\ (forall k : str, k <> py "my file+name.txt" ->
                          gcs_objects w' !! k = gcs_objects world_with_stream !! k))
  /\ exists w' : world,
       upload_stream_to_gcs example_bucket (py "my file+name.txt") 0 world_with_stream
       = (Returned tt, w').
Proof.
  destruct (upload_stream_to_gcs_copies example_bucket (py "my file+name.txt") 0
              world_with_stream example_body false eq_refl) as [Hcopied Hruns].
  split; [exact Hcopied|]. apply Hruns; reflexivity.
Defined.

(** ** The idempotency gate *)

Lemma env_call_fault (w : world) :
  env_call w
  = match fault_at 0 w with
    | Some tag => (Raised (EnvError tag), set_faults (drop 1) w)
    | None => (Returned tt, set_faults (drop 1) w)
    end.
Proof. unfold env_call, fault_at. by destruct (faults w) as [|[e|] l]. Qed.

Lemma fault_at_drop (i : nat) (w : world) :
  fault_at i (set_faults (drop 1) w) = fault_at (S i) w.
Proof. unfold fault_at. cbn [faults set_faults]. by rewrite lookup_drop. Qed.

Lemma fault_at_quiet (i : nat) (w : world) : faults w = [] -> fault_at i w = None.
Proof. unfold fault_at. by intros ->. Qed.

(** [file_exists_and_same_size] makes one client call, the existence check.
    It raises when that call raises and returns [False] otherwise: the
    handle it compares the size of has loaded no metadata. *)
Lemma file_exists_and_same_size_result (bucket_obj : gcs_bucket) (key : str)
      (s3_size : option Z) (w : world) :
  file_exists_and_same_size bucket_obj key s3_size w
  = (match fault_at 0 w with
     | Some tag => Raised (EnvError tag)
     | None => Returned false
     end, set_faults (drop 1) w).
Proof.
  unfold file_exists_and_same_size, try_except.
  unfold bind at 1. unfold blob_exists. rewrite after_env_call, env_call_fault.
  destruct (fault_at 0 w) as [tag|]; [done|].
  destruct (bool_decide _); [|done]. cbn [negb].
  by destruct s3_size as [n|].
Qed.

(** The gate never raises and never answers "skip"; it opens and closes
    nothing, stores nothing and does not sleep. *)
Lemma idempotency_gate_runs (bucket_obj : gcs_bucket) (key : str) (sid : nat)
      (s3_size : option Z) (w : world) :
  exists w' : world,
    idempotency_gate bucket_obj key sid s3_size w = (Returned None, w')
    /\ gcs_objects w' = gcs_objects w
    /\ writers w' = writers w
    /\ s3_objects w' = s3_objects w
    /\ slept w' = slept w
    /\ streams w' = streams w
    /\ faults w' = drop 1 (faults w).
Proof.
  unfold idempotency_gate, try_except. unfold bind at 1.
  rewrite file_exists_and_same_size_result.
  destruct (fault_at 0 w) as [tag|]; eexists; (split; [reflexivity|by cbn]).
Qed.

(** C3 does not hold of the code: the gate never decides to skip.  Whatever
    the destination holds and whatever the size hint, the gate answers "do
    not skip" without raising and without writing (the half of the claim
    about an absent hint and a failing check holds).  In
    [replicated_world_stream] the destination holds, under the key, an object
    whose size is the size hint, no check fails, and the answer of
    [file_exists_and_same_size] is [False]: the size it compares is that of a
    handle made by [bucket.blob], which has loaded none. *)
Theorem idempotency_gate_never_skips :
  (forall (bucket_obj : gcs_bucket) (key : str) (sid : nat) (s3_size : option Z) (w : world),
      exists w' : world,
        idempotency_gate bucket_obj key sid s3_size w = (Returned None, w')
        /\ gcs_objects w' = gcs_objects w /\ writers w' = writers w)
  /\ same_size_stored (py "my file+name.txt") (Some 5) replicated_world_stream
  /\ faults replicated_world_stream = []
  /\ blob_size (bucket_blob example_bucket (py "my file+name.txt")) replicated_world_stream
     = (Returned None, replicated_world_stream)
  /\ fst (file_exists_and_same_size example_bucket (py "my file+name.txt") (Some 5)
            replicated_world_stream)
     = Returned false
  /\ fst (idempotency_gate example_bucket (py "my file+name.txt") 2 (Some 5)
            replicated_world_stream)
     = Returned None.
Proof.
  split.
  { intros bucket_obj key sid s3_size w.
    destruct (idempotency_gate_runs bucket_obj key sid s3_size w)
      as (w' & Hgate & Hg & Hwr & _).
    by exists w'. }
  split; [exists example_body; split; vm_compute; reflexivity|].
  repeat split; vm_compute; reflexivity.
Qed.

(** ** Reading the event *)

Ltac step_outcome :=
  match goal with
  | |- context [outcome_bind ?o _] =>
      let E := fresh "E" in destruct o eqn:E; cbn [outcome_bind]
  | H : context [outcome_bind ?o _] |- _ =>
      let E := fresh "E" in destruct o eqn:E; cbn [outcome_bind] in H
  end.

(** [event_fields] returns exactly when both fields can be read and the key
    is a string, and then it returns the name as it is and the key decoded
    by one application of [unquote_plus]. *)
Lemma event_fields_returned (event name : pyval) (key : str) :
  event_fields event = Returned (name, key)
  <-> exists raw : str,
        event_bucket_name event = Returned name
        /\ event_raw_key event = Returned (PStr raw)
        /\ key = Urllib.unquote_plus raw.
Proof.
  unfold event_fields, event_bucket_name, event_raw_key, event_record.
  repeat (step_outcome; [|split; [done|by intros (? & ? & ? & ?)]]).
  match goal with |- context [unquote_plus ?v] => destruct v as [| | | |raw| |] end;
    cbn; try (split; [done|by intros (? & ? & ? & ?)]).
  split.
  - intros [= <- <-]. by exists raw.
  - intros (raw' & [= <-] & [= <-] & ->). done.
Qed.

Lemma event_fields_raised (event : pyval) :
  (exists e : exn, event_fields event = Raised e) <-> ~ has_fields event.
Proof.
  split.
  - intros (e & He) (name & raw & Hn & Hk).
    assert (Hr : event_fields event = Returned (name, Urllib.unquote_plus raw))
      by (apply event_fields_returned; eauto).
    congruence.
  - intros Hno. destruct (event_fields event) as [[name key]|e] eqn:Hf; [|eauto].
    apply event_fields_returned in Hf as (raw & Hn & Hk & _).
    exfalso. apply Hno. by exists name, raw.
Qed.

Lemma lambda_handler_fields `{Libraries} (cfg : config) (event name : pyval)
      (key : str) (w : world) :
  event_fields event = Returned (name, key) ->
  lambda_handler cfg event w
  = replicate_object cfg name key (set_logged (fun l => l ++ [ReceivedEvent event]) w).
Proof.
  intros Hf. unfold lambda_handler, bind, logger_log, try_except, lift. by rewrite Hf.
Qed.

(** C6 (amended): when a step of the lookup of the container name or of the
    object key fails, or the key is not a string, the handler raises the
    exception of the lookup right after logging "Invalid event format";
    nothing else has happened: no client call, no stream, no write, no
    sleep. *)
Theorem lambda_handler_malformed `{Libraries} (cfg : config) (event : pyval) (w : world) :
  ~ has_fields event ->
  exists (e : exn) (w' : world),
    lambda_handler cfg event w = (Raised e, w')
    /\ classified_malformed (lambda_handler cfg event w)
    /\ logged w' = logged w ++ [ReceivedEvent event; InvalidEventFormat e]
    /\ slept w' = slept w /\ streams w' = streams w /\ writers w' = writers w
    /\ faults w' = faults w /\ files w' = files w
    /\ gcs_objects w' = gcs_objects w.
Proof.
  intros Hno. apply event_fields_raised in Hno as (e & He).
  assert (Hrun : lambda_handler cfg event w
                 = (Raised e, set_logged (fun l => l ++ [InvalidEventFormat e])
                                (set_logged (fun l => l ++ [ReceivedEvent event]) w))).
  { unfold lambda_handler, bind, logger_log, try_except, lift, raise. by rewrite He. }
  eexists e, _. split; [exact Hrun|]. split.
  - exists e. rewrite Hrun. cbn. by rewrite last_snoc.
  - cbn. by rewrite <- app_assoc.
Qed.

Lemma lambda_handler_malformed_witness :
  exists (e : exn) (w' : world),
    lambda_handler (libs := example_libraries) example_config event_without_key example_world
    = (Raised e, w')
    /\ classified_malformed
         (lambda_handler (libs := example_libraries) example_config event_without_key example_world)
    /\ logged w' = logged example_world ++ [ReceivedEvent event_without_key; InvalidEventFormat e]
    /\ slept w' = slept example_world /\ streams w' = streams example_world
    /\ writers w' = writers example_world
    /\ faults w' = faults example_world /\ files w' = files example_world
    /\ gcs_objects w' = gcs_objects example_world.
Proof.
  apply (@lambda_handler_malformed example_libraries example_config event_without_key example_world).
  intros (name & raw & _ & Hk). vm_compute in Hk. discriminate.
Defined.

(** C6 as stated fails for a container name of the wrong shape: a numeric
    name passes the normalisation, the credentials file is written and the
    source store is called before anything fails, and the failure is not
    reported as an invalid event. *)
Lemma numeric_name_not_malformed :
  event_bucket_name event_with_numeric_name = Returned (PInt 5)
  /\ ~ classified_malformed
        (lambda_handler (libs := example_libraries) example_config event_with_numeric_name example_world)
  /\ fst (lambda_handler (libs := example_libraries) example_config event_with_numeric_name example_world)
     = Raised (EnvError "ParamValidationError")
  /\ files (snd (lambda_handler (libs := example_libraries) example_config event_with_numeric_name example_world))
       !! tmp_path = Some (py "service-account-key").
Proof.
  split; [reflexivity|]. split; [|split; vm_compute; reflexivity].
  intros (e & _ & Hlast). vm_compute in Hlast. discriminate.
Qed.

(** ** Credentials *)

Section Credentials.
Context {libs : Libraries} (cfg : config).

(** Writing the key file and building the client from it. *)
Lemma client_from_key (content : str) (w : world) :
  (write_file tmp_path content ;; from_service_account_json tmp_path) w
  = match fault_at 0 w with
    | Some tag => (Raised (EnvError tag), set_faults (drop 1) w)
    | None =>
        let w1 := set_files (fun m => <[tmp_path := content]> m) (set_faults (drop 1) w) in
        match fault_at 1 w with
        | Some tag => (Raised (EnvError tag), set_faults (drop 1) w1)
        | None =>
            if service_account_ok content
            then (Returned (GcsClient content), set_faults (drop 1) w1)
            else (Raised (EnvError "InvalidServiceAccountKey"), set_faults (drop 1) w1)
        end
    end.
Proof.
  unfold bind at 1. unfold write_file. rewrite after_env_call, env_call_fault.
  destruct (fault_at 0 w) as [tag|]; [done|].
  unfold from_service_account_json. rewrite after_env_call, env_call_fault.
  change (fault_at 0 (set_files ?f (set_faults (drop 1) w)))
    with (fault_at 0 (set_faults (drop 1) w)).
  rewrite fault_at_drop.
  destruct (fault_at 1 w) as [tag|]; [done|].
  cbn [files set_faults set_files]. by rewrite lookup_insert_eq.
Qed.

Lemma init_gcs_client_raw (w : world) :
  truthy (GCP_SA_KEY cfg) = true ->
  init_gcs_client cfg w
  = (write_file tmp_path (env_value (GCP_SA_KEY cfg)) ;;
     from_service_account_json tmp_path) w.
Proof. intros Hk. unfold init_gcs_client. by rewrite Hk. Qed.

Lemma init_gcs_client_missing (w : world) :
  truthy (GCP_SA_KEY cfg) = false -> truthy (GCP_SA_KEY_B64 cfg) = false ->
  init_gcs_client cfg w = (Raised credentials_required, w).
Proof. intros Hk Hb. unfold init_gcs_client. by rewrite Hk, Hb. Qed.

(** Only the missing-credentials branch raises [credentials_required]. *)
Lemma init_gcs_client_required_iff (w : world) :
  fst (init_gcs_client cfg w) = Raised credentials_required
  <-> truthy (GCP_SA_KEY cfg) = false /\ truthy (GCP_SA_KEY_B64 cfg) = false.
Proof.
  split; [|by intros [Hk Hb]; rewrite init_gcs_client_missing].
  destruct (truthy (GCP_SA_KEY cfg)) eqn:Hk.
  - rewrite init_gcs_client_raw, client_from_key by done.
    destruct (fault_at 0 w); [done|]. cbn zeta.
    destruct (fault_at 1 w); [done|]. by destruct (service_account_ok _).
  - destruct (truthy (GCP_SA_KEY_B64 cfg)) eqn:Hb; [|done].
    unfold init_gcs_client. rewrite Hk, Hb.
    destruct (b64decode_utf8 _) as [decoded|]; [|done].
    change (bind (ret decoded) ?k) with (k decoded). cbn beta.
    rewrite client_from_key.
    destruct (fault_at 0 w); [done|]. cbn zeta.
    destruct (fault_at 1 w); [done|]. by destruct (service_account_ok _).
Qed.

End Credentials.

(** C8 as stated fails: with both credential variables set there is no
    configuration error at all; the handler builds its client and replicates
    the object. *)
Lemma both_forms_accepted :
  truthy (GCP_SA_KEY config_with_both) = true
  /\ truthy (GCP_SA_KEY_B64 config_with_both) = true
  /\ fst (init_gcs_client (libs := example_libraries) config_with_both example_world)
     = Returned (GcsClient (py "service-account-key"))
  /\ fst (lambda_handler (libs := example_libraries) config_with_both example_event example_world)
     = Returned success_response.
Proof. repeat split; vm_compute; reflexivity. Qed.

(** C8 (amended): at least one of the two credential variables has to be set
    and non-empty.  [init_gcs_client] raises its [RuntimeError] exactly when
    neither is; it does so inside the handler, for each event, once the
    event has been logged and read, and before anything else is touched.  An
    event that cannot be read fails on its own account first, the
    credentials unexamined. *)
Theorem credentials_checked_per_event `{Libraries} (cfg : config) :
  (forall w : world,
      fst (init_gcs_client cfg w) = Raised credentials_required
      <-> truthy (GCP_SA_KEY cfg) = false /\ truthy (GCP_SA_KEY_B64 cfg) = false)
  /\ (truthy (GCP_SA_KEY cfg) = false -> truthy (GCP_SA_KEY_B64 cfg) = false ->
      (forall (event name : pyval) (key : str) (w : world),
          event_fields event = Returned (name, key) ->
          lambda_handler cfg event w
          = (Raised credentials_required,
             set_logged (fun l => l ++ [ReceivedEvent event]) w))
      /\ (forall (event : pyval) (w : world),
             ~ has_fields event ->
             classified_malformed (lambda_handler cfg event w))).
Proof.
  split; [apply init_gcs_client_required_iff|].
  intros Hk Hb. split.
  - intros event name key w Hf. rewrite (lambda_handler_fields cfg event name key w Hf).
    unfold replicate_object. unfold bind at 1.
    by rewrite init_gcs_client_missing.
  - intros event w Hno. apply event_fields_raised in Hno as (e & He).
    exists e. unfold lambda_handler, bind, logger_log, try_except, lift, raise.
    rewrite He. cbn. by rewrite last_snoc.
Qed.

Lemma credentials_checked_per_event_witness :
  fst (init_gcs_client (libs := example_libraries) config_without_key example_world)
  = Raised credentials_required
  /\ lambda_handler (libs := example_libraries) config_without_key example_event example_world
     = (Raised credentials_required,
        set_logged (fun l => l ++ [ReceivedEvent example_event]) example_world)
  /\ classified_malformed
       (lambda_handler (libs := example_libraries) config_without_key event_without_key
          example_world).
Proof.
  destruct (@credentials_checked_per_event example_libraries config_without_key)
    as [Hiff Hmissing].
  destruct (Hmissing eq_refl eq_refl) as [Hevent Hmalformed].
  split; [|split].
  - apply Hiff. split; reflexivity.
  - apply (Hevent example_event (PStr (py "photos")) (py "my file+name.txt")).
    vm_compute. reflexivity.
  - apply Hmalformed. intros (name & raw & _ & Hk). vm_compute in Hk. discriminate.
Defined.

(** C10: with both credential variables set, the raw one is used: the
    outcome of [init_gcs_client] is that of writing the raw secret to the key
    file and building the client from it, whatever the encoded variable
    holds (it is not even decoded), it is never the missing-credentials
    error, and when the two library calls go through and the key is accepted
    the client returned carries the raw secret. *)
Theorem init_gcs_client_prefers_raw `{Libraries} (cfg : config) (w : world) :
  truthy (GCP_SA_KEY cfg) = true -> truthy (GCP_SA_KEY_B64 cfg) = true ->
  let raw := env_value (GCP_SA_KEY cfg) in
  init_gcs_client cfg w
  = (write_file tmp_path raw ;; from_service_account_json tmp_path) w
  /\ (forall b64 : option str,
         init_gcs_client (with_encoded_key b64 cfg) w = init_gcs_client cfg w)
  /\ fst (init_gcs_client cfg w) <> Raised credentials_required
  /\ (fault_at 0 w = None -> fault_at 1 w = None -> service_account_ok raw = true ->
      exists w' : world,
        init_gcs_client cfg w = (Returned (GcsClient raw), w')
        /\ files w' !! tmp_path = Some raw).
Proof.
  intros Hk Hb raw. split; [by apply init_gcs_client_raw|]. split; [|split].
  - intros b64. rewrite !init_gcs_client_raw by done. reflexivity.
  - intros Hreq. apply init_gcs_client_required_iff in Hreq as [Hk' _]. congruence.
  - intros H0 H1 Hok. rewrite init_gcs_client_raw, client_from_key by done.
    rewrite H0, H1. cbn zeta. fold raw. rewrite Hok.
    eexists. split; [reflexivity|]. cbn. apply lookup_insert_eq.
Qed.

Lemma init_gcs_client_prefers_raw_witness :
  init_gcs_client (libs := example_libraries) config_with_both example_world
  = (write_file tmp_path (py "service-account-key") ;; from_service_account_json (libs := example_libraries) tmp_path)
      example_world
  /\ (forall b64 : option str,
         init_gcs_client (libs := example_libraries) (with_encoded_key b64 config_with_both)
           example_world
         = init_gcs_client (libs := example_libraries) config_with_both example_world)
  /\ fst (init_gcs_client (libs := example_libraries) config_with_both example_world)
     <> Raised credentials_required
  /\ exists w' : world,
       init_gcs_client (libs := example_libraries) config_with_both example_world
       = (Returned (GcsClient (py "service-account-key")), w')
       /\ files w' !! tmp_path = Some (py "service-account-key").
Proof.
  destruct (@init_gcs_client_prefers_raw example_libraries config_with_both example_world
              eq_refl eq_refl) as (Hrun & Hany & Hnot & Hclient).
  split; [exact Hrun|]. split; [exact Hany|]. split; [exact Hnot|].
  apply Hclient; reflexivity.
Defined.

(** ** What the operations leave alone *)

Lemma keeps_refl (keep : nat -> Prop) (w : world) : keeps keep w w.
Proof. by repeat split. Qed.

Lemma keeps_trans (keep : nat -> Prop) (w1 w2 w3 : world) :
  keeps keep w1 w2 -> keeps keep w2 w3 -> keeps keep w1 w3.
Proof.
  intros (Hs & Hl & Hk) (Hs' & Hl' & Hk'). split; [congruence|]. split; [lia|].
  intros j Hj Hlt. rewrite Hk' by (done || lia). by apply Hk.
Qed.

Lemma keeps_weaken (keep keep' : nat -> Prop) (w w' : world) :
  (forall j, keep' j -> keep j) -> keeps keep w w' -> keeps keep' w w'.
Proof. intros Hsub (Hs & Hl & Hk). repeat split; auto. Qed.

(** A step that leaves the source store and the streams as they are. *)
Lemma keeps_same (keep : nat -> Prop) (w w' : world) :
  s3_objects w' = s3_objects w -> streams w' = streams w -> keeps keep w w'.
Proof. intros Hs Hst. unfold keeps. rewrite Hs, Hst. by repeat split. Qed.

(** A step that replaces one stream the frame does not select. *)
Lemma keeps_insert (keep : nat -> Prop) (w w' : world) (sid : nat) (st : stream_state) :
  ~ keep sid ->
  s3_objects w' = s3_objects w -> streams w' = <[sid := st]> (streams w) ->
  keeps keep w w'.
Proof.
  intros Hsid Hs Hst. unfold keeps. rewrite Hs, Hst, length_insert.
  repeat split; [lia|]. intros j Hj _. apply list_lookup_insert_ne. by intros ->.
Qed.

Lemma bind_keeps {A B} (keep : nat -> Prop) (m : M world A) (k : A -> M world B) (w : world) :
  keeps keep w (snd (m w)) ->
  (forall a w1, m w = (Returned a, w1) -> keeps keep w1 (snd (k a w1))) ->
  keeps keep w (snd (bind m k w)).
Proof.
  intros Hm Hk. unfold bind. destruct (m w) as [[a|e] w1] eqn:Hmw; [|exact Hm].
  eapply keeps_trans; [exact Hm|]. by apply Hk.
Qed.

Lemma env_call_keeps (keep : nat -> Prop) (w : world) : keeps keep w (snd (env_call w)).
Proof. rewrite env_call_state. by apply keeps_same. Qed.

(** An operation made of the environment check followed by [op]. *)
Lemma client_call_keeps {A} (keep : nat -> Prop) (op : M world A) (w : world) :
  keeps keep (set_faults (drop 1) w) (snd (op (set_faults (drop 1) w))) ->
  keeps keep w (snd ((env_call ;; op) w)).
Proof.
  intros Hop. rewrite after_env_call.
  destruct (env_call w) as [[u|e] w1].
  - eapply keeps_trans; [|exact Hop]. by apply keeps_same.
  - by apply keeps_same.
Qed.

Lemma stream_read_keeps (keep : nat -> Prop) (sid : nat) (amt : Z) (w : world) :
  ~ keep sid -> keeps keep w (snd (stream_read sid amt w)).
Proof.
  intros Hsid. apply client_call_keeps.
  destruct (streams _ !! sid) as [[data [|]]|]; try apply keeps_refl.
  cbn zeta. destruct (split_at _ data) as [chunk rest].
  by eapply keeps_insert.
Qed.

Lemma stream_close_keeps (keep : nat -> Prop) (sid : nat) (w : world) :
  ~ keep sid -> keeps keep w (snd (stream_close sid w)).
Proof.
  intros Hsid. apply client_call_keeps.
  destruct (streams _ !! sid) as [[data cl]|]; [|apply keeps_refl].
  by eapply keeps_insert.
Qed.

Lemma writer_write_keeps (keep : nat -> Prop) (fid : nat) (chunk : bytes) (w : world) :
  keeps keep w (snd (writer_write fid chunk w)).
Proof.
  apply client_call_keeps.
  destruct (writers _ !! fid) as [[key buf [|]]|]; try apply keeps_refl.
  by apply keeps_same.
Qed.

Lemma writer_close_keeps (keep : nat -> Prop) (fid : nat) (w : world) :
  keeps keep w (snd (writer_close fid w)).
Proof.
  apply client_call_keeps.
  destruct (writers _ !! fid) as [[key buf [|]]|]; try apply keeps_refl.
  by apply keeps_same.
Qed.

Lemma blob_open_keeps (keep : nat -> Prop) (blob : gcs_blob) (w : world) :
  keeps keep w (snd (blob_open blob w)).
Proof. apply client_call_keeps. by apply keeps_same. Qed.

Lemma s3_get_object_keeps (keep : nat -> Prop) (bucket : pyval) (key : str) (w : world) :
  keeps keep w (snd (s3_get_object bucket key w)).
Proof.
  apply client_call_keeps.
  destruct bucket as [| | | |b| |]; try apply keeps_refl.
  cbn [s3_objects set_faults].
  destruct (s3_objects w !! (b, key)) as [o|]; [|apply keeps_refl].
  unfold keeps. cbn. rewrite length_app. repeat split; [lia|].
  intros j _ Hj. by apply lookup_app_l.
Qed.

Lemma copy_chunks_keeps (keep : nat -> Prop) (fuel f sid : nat) (w : world) :
  ~ keep sid -> keeps keep w (snd (copy_chunks fuel f sid w)).
Proof.
  intros Hsid. revert w. induction fuel as [|fuel IH]; intros w; [apply keeps_refl|].
  cbn [copy_chunks]. apply bind_keeps; [by apply stream_read_keeps|].
  intros [|x chunk] w1 _; [apply keeps_refl|].
  apply bind_keeps; [apply writer_write_keeps|]. intros _ w2 _. apply IH.
Qed.

Lemma upload_stream_to_gcs_keeps (keep : nat -> Prop) (bucket_obj : gcs_bucket)
      (key : str) (sid : nat) (w : world) :
  ~ keep sid -> keeps keep w (snd (upload_stream_to_gcs bucket_obj key sid w)).
Proof.
  intros Hsid. unfold upload_stream_to_gcs, with_blob_open.
  apply bind_keeps; [apply blob_open_keeps|]. intros f w1 _.
  match goal with |- context [copy_chunks ?n f sid w1] =>
    pose proof (copy_chunks_keeps keep n f sid w1 Hsid) as Hcopy;
    destruct (copy_chunks n f sid w1) as [[u|e] w2] end;
    pose proof (writer_close_keeps keep f w2) as Hclose;
    destruct (writer_close f w2) as [[u'|e'] w3]; by eapply keeps_trans.
Qed.

(** ** Invariants of the retry loop *)

Section RetryInvariant.
Context {St : Type} `{Runtime St} {A : Type} (P : St -> Prop) (fn : M St A).
Hypothesis fn_keeps : forall s, P s -> P (snd (fn s)).
Hypothesis sleep_keeps : forall d s, P s -> P (snd (time_sleep d s)).
Hypothesis warning_keeps : forall r s, P s -> P (snd (logger_warning r s)).

(** However the loop ends, the invariant holds at the end; when it ends by
    returning, the value comes from an invocation of [fn] that started in a
    state satisfying the invariant and ended in the final state. *)
Lemma retry_from_invariant (attempts backoff : Z) (todo : nat) :
  forall (i : Z) (last_exc : option exn) (s : St),
    P s ->
    P (snd (retry_from fn attempts backoff todo i last_exc s))
    /\ forall (v : A) (s' : St),
         retry_from fn attempts backoff todo i last_exc s = (Returned v, s') ->
         exists s0 : St, P s0 /\ fn s0 = (Returned v, s').
Proof.
  induction todo as [|todo IH]; intros i last_exc s Hs.
  - cbn [retry_from]. by destruct last_exc.
  - cbn [retry_from]. unfold try_except.
    pose proof (fn_keeps s Hs) as Hfn.
    destruct (fn s) as [[v|e] s1] eqn:Hrun.
    + split; [done|]. intros v' s' [= <- <-]. by exists s.
    + cbn [snd] in Hfn. unfold bind.
      pose proof (warning_keeps (AttemptFailed (i + 1) e) s1 Hfn) as Hw.
      destruct (logger_warning (AttemptFailed (i + 1) e) s1) as [[u|e'] s2]; [|by split].
      cbn [snd] in Hw.
      destruct (i <? attempts - 1).
      * pose proof (sleep_keeps (backoff * (i + 1)) s2 Hw) as Hsl.
        destruct (time_sleep (backoff * (i + 1)) s2) as [[u'|e'] s3]; [|by split].
        by apply IH.
      * cbn [ret]. by apply IH.
Qed.

Lemma retry_fn_invariant (attempts backoff : Z) (s : St) :
  P s ->
  P (snd (retry_fn fn attempts backoff s))
  /\ forall (v : A) (s' : St),
       retry_fn fn attempts backoff s = (Returned v, s') ->
       exists s0 : St, P s0 /\ fn s0 = (Returned v, s').
Proof. apply retry_from_invariant. Qed.

End RetryInvariant.

(** ** One upload attempt *)

Lemma s3_get_object_stream_returned (bucket : pyval) (key : str)
      (w w' : world) (sid : nat) (size : option Z) :
  s3_get_object_stream bucket key w = (Returned (sid, size), w') ->
  exists (b : str) (o : s3_object),
    bucket = PStr b /\ s3_objects w !! (b, key) = Some o
    /\ sid = length (streams w) /\ size = content_length o
    /\ w' = set_streams (fun l => l ++ [Stream (object_body o) false])
              (set_faults (drop 1) w).
Proof.
  unfold s3_get_object_stream. unfold bind at 1. unfold s3_get_object.
  rewrite after_env_call. destruct (env_call w) as [[u|e] w1]; [|done].
  destruct bucket as [| | | |b| |]; try done.
  cbn [s3_objects set_faults].
  destruct (s3_objects w !! (b, key)) as [o|] eqn:Ho; [|done].
  cbn. intros [= <- <- <-]. by exists b, o.
Qed.

Lemma s3_get_object_stream_keeps (keep : nat -> Prop) (bucket : pyval)
      (key : str) (w : world) :
  keeps keep w (snd (s3_get_object_stream bucket key w)).
Proof.
  unfold s3_get_object_stream. apply bind_keeps; [apply s3_get_object_keeps|].
  intros resp w1 _. apply keeps_refl.
Qed.

Lemma stream_close_stores (sid : nat) (w : world) :
  gcs_objects (snd (stream_close sid w)) = gcs_objects w
  /\ writers (snd (stream_close sid w)) = writers w.
Proof.
  unfold stream_close. rewrite after_env_call.
  destruct (env_call w) as [[u|e] w1]; [|done].
  cbn [streams set_faults]. by destruct (streams w !! sid) as [[data cl]|].
Qed.

(** An attempt leaves the streams that existed before it as they were. *)
Lemma upload_keeps (bucket_obj : gcs_bucket) (s3_bucket : pyval)
      (s3_key : str) (w : world) :
  keeps (fun j => (j < length (streams w))%nat) w
        (snd (upload bucket_obj s3_bucket s3_key w)).
Proof.
  unfold upload. apply bind_keeps; [apply s3_get_object_stream_keeps|].
  intros [sid size] w1 Hget.
  apply s3_get_object_stream_returned in Hget as (b & o & _ & _ & -> & _ & _).
  assert (Hsid : ~ (length (streams w) < length (streams w))%nat) by lia.
  apply bind_keeps; [by apply upload_stream_to_gcs_keeps|]. intros _ w2 _.
  apply bind_keeps; [|intros; apply keeps_refl].
  unfold try_pass. cbn [snd]. by apply stream_close_keeps.
Qed.

(** An attempt that returns has stored the body of the source object under
    the key. *)
Lemma upload_returned (bucket_obj : gcs_bucket) (s3_bucket : pyval)
      (s3_key : str) (w w' : world) (v : bool) :
  upload bucket_obj s3_bucket s3_key w = (Returned v, w') ->
  exists (b : str) (o : s3_object),
    s3_bucket = PStr b /\ s3_objects w !! (b, s3_key) = Some o
    /\ gcs_objects w' !! s3_key = Some (object_body o).
Proof.
  unfold upload. unfold bind at 1.
  destruct (s3_get_object_stream s3_bucket s3_key w) as [[[sid size]|e] w1] eqn:Hget; [|done].
  apply s3_get_object_stream_returned in Hget as (b & o & -> & Ho & -> & _ & ->).
  unfold bind at 1.
  match goal with |- context [upload_stream_to_gcs ?b0 ?k ?s ?w0] =>
    destruct (upload_stream_to_gcs b0 k s w0) as [[[]|e] w2] eqn:Hup; [|done] end.
  eapply (upload_stream_to_gcs_returned _ _ _ _ _ (object_body o) false) in Hup;
    [|by cbn; rewrite lookup_app_r, Nat.sub_diag].
  destruct Hup as (Hg & _).
  unfold bind, try_pass, ret. cbn [fst snd]. intros [= _ <-].
  exists b, o. split; [done|]. split; [done|].
  by rewrite (proj1 (stream_close_stores _ w2)).
Qed.

(** ** A handler invocation that replicates *)

Lemma responses_differ : skipped_response <> success_response.
Proof. discriminate. Qed.

(** [init_gcs_client] only writes the key file and consumes environment
    choices. *)
Lemma init_gcs_client_state `{Libraries} (cfg : config) (w : world) :
  s3_objects (snd (init_gcs_client cfg w)) = s3_objects w
  /\ streams (snd (init_gcs_client cfg w)) = streams w
  /\ gcs_objects (snd (init_gcs_client cfg w)) = gcs_objects w
  /\ writers (snd (init_gcs_client cfg w)) = writers w
  /\ (faults w = [] -> faults (snd (init_gcs_client cfg w)) = []).
Proof.
  assert (Hkey : forall content,
    let w' := snd ((write_file tmp_path content ;; from_service_account_json tmp_path) w) in
    s3_objects w' = s3_objects w /\ streams w' = streams w
    /\ gcs_objects w' = gcs_objects w /\ writers w' = writers w
    /\ (faults w = [] -> faults w' = [])).
  { intros content. rewrite client_from_key.
    destruct (fault_at 0 w); [by cbn; repeat split; intros ->|].
    cbn zeta. destruct (fault_at 1 w); [by cbn; repeat split; intros ->|].
    destruct (service_account_ok content); by cbn; repeat split; intros ->. }
  unfold init_gcs_client.
  destruct (truthy (GCP_SA_KEY cfg)); [apply Hkey|].
  destruct (truthy (GCP_SA_KEY_B64 cfg)); [|done].
  destruct (b64decode_utf8 _) as [decoded|]; [apply Hkey|done].
Qed.

(** Building the client does not depend on the state: when it has worked
    once it works again whenever no failure is injected. *)
Lemma init_gcs_client_again `{Libraries} (cfg : config) (w w1 w2 : world) (client : gcs_client) :
  init_gcs_client cfg w = (Returned client, w1) ->
  faults w2 = [] ->
  fst (init_gcs_client cfg w2) = Returned client.
Proof.
  assert (Hkey : forall content,
    (write_file tmp_path content ;; from_service_account_json tmp_path) w = (Returned client, w1) ->
    faults w2 = [] ->
    fst ((write_file tmp_path content ;; from_service_account_json tmp_path) w2)
    = Returned client).
  { intros content. rewrite !client_from_key. intros Hrun Hq.
    rewrite !(fault_at_quiet _ w2 Hq). cbn zeta.
    destruct (fault_at 0 w); [done|]. cbn zeta in Hrun.
    destruct (fault_at 1 w); [done|].
    destruct (service_account_ok content); [|done].
    by injection Hrun as <- _. }
  unfold init_gcs_client.
  destruct (truthy (GCP_SA_KEY cfg)); [apply Hkey|].
  destruct (truthy (GCP_SA_KEY_B64 cfg)); [|done].
  destruct (b64decode_utf8 _) as [decoded|]; [apply Hkey|done].
Qed.

Lemma upload_with_retries_returned (cfg : config) (bucket_obj : gcs_bucket)
      (s3_bucket : pyval) (s3_key : str) (w w' : world) (r : response) :
  upload_with_retries cfg bucket_obj s3_bucket s3_key w = (Returned r, w') ->
  keeps (fun j => (j < length (streams w))%nat) w w'
  /\ exists (b : str) (o : s3_object),
       s3_bucket = PStr b /\ s3_objects w !! (b, s3_key) = Some o
       /\ gcs_objects w' !! s3_key = Some (object_body o).
Proof.
  unfold upload_with_retries. unfold bind at 1.
  set (P := keeps (fun j => (j < length (streams w))%nat) w).
  destruct (retry_fn_invariant P (upload bucket_obj s3_bucket s3_key)) with
    (attempts := RETRY_ATTEMPTS cfg) (backoff := RETRY_BACKOFF cfg) (s := w)
    as [Hend Hret].
  - intros s Hs. eapply keeps_trans; [exact Hs|].
    eapply keeps_weaken; [|apply upload_keeps].
    intros j Hj. cbn beta in *. destruct Hs as (_ & Hlen & _). lia.
  - intros d s Hs. eapply keeps_trans; [exact Hs|].
    cbn [time_sleep world_runtime]. unfold world_sleep.
    destruct (d <? 0); [apply keeps_refl|by apply keeps_same].
  - intros l s Hs. eapply keeps_trans; [exact Hs|]. by apply keeps_same.
  - apply keeps_refl.
  - destruct (retry_fn _ _ _ w) as [[v|e] w1] eqn:Hrun; [|done].
    cbn [snd] in Hend. destruct (Hret v w1 eq_refl) as (s0 & Hs0 & Hup).
    apply upload_returned in Hup as (b & o & -> & Ho & Hg).
    unfold bind, logger_log, ret. intros [= _ <-]. split.
    + eapply keeps_trans; [exact Hend|]. by apply keeps_same.
    + exists b, o. split; [done|]. split; [|done].
      destruct Hs0 as (Hs3 & _). by rewrite <- Hs3.
Qed.

(** An invocation that answers "Replication successful" has read the two
    fields, built its client, found the source object, stored its body under
    the decoded key, and left the stream it opened first open. *)
Lemma replicate_object_success `{Libraries} (cfg : config) (name : pyval) (key : str)
      (w w' : world) :
  replicate_object cfg name key w = (Returned success_response, w') ->
  exists (b : str) (o : s3_object) (client : gcs_client) (wi : world),
    name = PStr b
    /\ s3_objects w !! (b, key) = Some o
    /\ s3_objects w' = s3_objects w
    /\ gcs_objects w' !! key = Some (object_body o)
    /\ init_gcs_client cfg w = (Returned client, wi)
    /\ streams w' !! length (streams w) = Some (Stream (object_body o) false).
Proof.
  unfold replicate_object. unfold bind at 1.
  pose proof (init_gcs_client_state cfg w) as (Hs3i & Hsti & _).
  destruct (init_gcs_client cfg w) as [[client|e] wi] eqn:Hinit; [|done].
  cbn [snd] in Hs3i, Hsti. unfold bind at 1.
  destruct (s3_get_object_stream name key wi) as [[[sid size]|e] w2] eqn:Hget; [|done].
  apply s3_get_object_stream_returned in Hget as (b & o & -> & Ho & -> & -> & Hw2).
  unfold bind at 1.
  destruct (idempotency_gate_runs (client_bucket client (GCS_BUCKET cfg)) key
              (length (streams wi)) (content_length o) w2)
    as (w3 & Hgate & _ & _ & Hs3g & _ & Hstg & _).
  rewrite Hgate.
  intros Hup. apply upload_with_retries_returned in Hup as (Hkeep & b' & o' & [= <-] & Ho' & Hg).
  assert (Hs32 : s3_objects w2 = s3_objects w) by (by subst w2).
  assert (Hst2 : streams w2 = streams w ++ [Stream (object_body o) false])
    by (subst w2; cbn; by rewrite Hsti).
  rewrite Hs3g, Hs32 in Ho'. rewrite Hs3i in Ho.
  assert (o' = o) by congruence. subst o'.
  exists b, o, client, wi. repeat split; try done.
  - destruct Hkeep as (-> & _). congruence.
  - destruct Hkeep as (_ & _ & Hold).
    rewrite Hold; rewrite Hstg, Hst2.
    + by rewrite lookup_app_r, Nat.sub_diag.
    + rewrite length_app. simpl. lia.
    + rewrite length_app. simpl. lia.
Qed.

Lemma lambda_handler_success `{Libraries} (cfg : config) (event : pyval) (w w' : world) :
  lambda_handler cfg event w = (Returned success_response, w') ->
  exists (b : str) (raw : str) (o : s3_object),
    event_bucket_name event = Returned (PStr b)
    /\ event_raw_key event = Returned (PStr raw)
    /\ s3_objects w !! (b, Urllib.unquote_plus raw) = Some o
    /\ s3_objects w' = s3_objects w
    /\ gcs_objects w' !! Urllib.unquote_plus raw = Some (object_body o)
    /\ streams w' !! length (streams w) = Some (Stream (object_body o) false).
Proof.
  intros Hrun.
  destruct (event_fields event) as [[name key]|e] eqn:Hf; cycle 1.
  { unfold lambda_handler, bind, logger_log, try_except, lift, raise in Hrun.
    by rewrite Hf in Hrun. }
  rewrite (lambda_handler_fields cfg event name key w Hf) in Hrun.
  apply replicate_object_success in Hrun as (b & o & client & wi & -> & Ho & Hs3 & Hg & _ & Hst).
  apply event_fields_returned in Hf as (raw & Hn & Hk & ->).
  by exists b, raw, o.
Qed.

(** ** Replaying an event *)

Lemma s3_get_object_stream_quiet (b key : str) (o : s3_object) (w : world) :
  faults w = [] ->
  s3_objects w !! (b, key) = Some o ->
  s3_get_object_stream (PStr b) key w
  = (Returned (length (streams w), content_length o),
     set_streams (fun l => l ++ [Stream (object_body o) false]) (set_faults (drop 1) w)).
Proof.
  intros Hq Ho. unfold s3_get_object_stream. unfold bind at 1. unfold s3_get_object.
  rewrite after_env_call, (env_call_quiet w Hq).
  cbn [s3_objects set_faults]. by rewrite Ho.
Qed.

(** Whatever the handler returns is "Replication successful": the gate
    never makes it return "Skipped". *)
Lemma replicate_object_answer `{Libraries} (cfg : config) (name : pyval) (key : str)
      (w w' : world) (r : response) :
  replicate_object cfg name key w = (Returned r, w') -> r = success_response.
Proof.
  unfold replicate_object. unfold bind at 1.
  destruct (init_gcs_client cfg w) as [[client|e] w1]; [|done].
  unfold bind at 1.
  destruct (s3_get_object_stream name key w1) as [[[sid size]|e] w2]; [|done].
  unfold bind at 1.
  destruct (idempotency_gate_runs (client_bucket client (GCS_BUCKET cfg)) key sid size w2)
    as (w3 & Hgate & _).
  rewrite Hgate. unfold upload_with_retries, bind, logger_log, ret.
  destruct (retry_fn _ _ _ w3) as [[v|e] w4]; [|done].
  by intros [= <- _].
Qed.

Lemma lambda_handler_answer `{Libraries} (cfg : config) (event : pyval) (w w' : world)
      (r : response) :
  lambda_handler cfg event w = (Returned r, w') -> r = success_response.
Proof.
  intros Hrun.
  destruct (event_fields event) as [[name key]|e] eqn:Hf; cycle 1.
  { unfold lambda_handler, bind, logger_log, try_except, lift, raise in Hrun.
    by rewrite Hf in Hrun. }
  rewrite (lambda_handler_fields cfg event name key w Hf) in Hrun.
  by eapply replicate_object_answer.
Qed.

(** C4 does not hold of the code.  [example_event] is replicated from
    [example_world], which leaves [replicated_world]: the destination holds
    the object under the key, the source object and its size are unchanged
    and no failure is in store.  The same event handled again is answered
    "Replication successful", not "Skipped", and a second write stream has
    stored the object once more.  The defect is that of C3: the size the
    gate compares is the size of a handle that has loaded no metadata, so
    no invocation at all is answered "Skipped". *)
Theorem replay_uploads_again :
  lambda_handler (libs := example_libraries) example_config example_event example_world
  = (Returned success_response, replicated_world)
  /\ gcs_objects replicated_world !! py "my file+name.txt" = Some example_body
  /\ s3_objects replicated_world = s3_objects example_world
  /\ faults replicated_world = []
  /\ fst (lambda_handler (libs := example_libraries) example_config example_event
            replicated_world)
     = Returned success_response
  /\ writers (snd (lambda_handler (libs := example_libraries) example_config example_event
                     replicated_world))
     = writers replicated_world ++ [Writer (py "my file+name.txt") example_body true]
  /\ forall (libs : Libraries) (cfg : config) (event : pyval) (w : world),
       fst (lambda_handler cfg event w) <> Returned skipped_response.
Proof.
  do 6 (split; [vm_compute; reflexivity|]).
  intros libs cfg event w Hskip.
  destruct (lambda_handler cfg event w) as [r w'] eqn:Hrun. cbn [fst] in Hskip. subst r.
  apply lambda_handler_answer in Hrun. by apply responses_differ.
Qed.

(** ** Decoding the key *)

Section KeyDecoding.
Import Urllib.

Local Abbreviation ascii := (Forall (fun c : N => (c < 128)%N)).











End KeyDecoding.



(** ** Streams left open *)

(** Whenever the handler answers "Replication successful", the stream it
    opened before the idempotency check is still open. *)
Lemma first_stream_stays_open `{Libraries} (cfg : config) (event : pyval) (w w' : world) :
  lambda_handler cfg event w = (Returned success_response, w') ->
  exists data : bytes, streams w' !! length (streams w) = Some (Stream data false).
Proof.
  intros Hrun. apply lambda_handler_success in Hrun as (b & raw & o & _ & _ & _ & _ & _ & Hst).
  by exists (object_body o).
Qed.

(** The copy never closes the stream it reads. *)
Lemma copy_chunks_leaves_open (fuel f sid : nat) :
  forall (w : world) (data : bytes),
    streams w !! sid = Some (Stream data false) ->
    exists rest : bytes,
      streams (snd (copy_chunks fuel f sid w)) !! sid = Some (Stream rest false).
Proof.
  induction fuel as [|fuel IH]; intros w data Hs; [by exists data|].
  cbn [copy_chunks]. unfold bind at 1.
  destruct (stream_read sid chunk_size w) as [[chunk|e] w1] eqn:Hread.
  - apply stream_read_returned in Hread as (rest & Hs' & _ & _ & ->); [|apply chunk_size_pos].
    assert (Hrest : forall w2, streams w2 = <[sid := Stream rest false]> (streams w) ->
                               streams w2 !! sid = Some (Stream rest false)).
    { intros w2 ->. apply list_lookup_insert_eq. by eapply lookup_lt_Some. }
    destruct chunk as [|x chunk]; [exists rest; by apply Hrest|].
    unfold bind at 1.
    match goal with |- context [writer_write f ?ch ?w0] =>
      destruct (writer_write f ch w0) as [[u|e] w2] eqn:Hwrite end.
    + apply writer_write_returned in Hwrite as (key & buf & _ & ->).
      apply (IH _ rest). by apply Hrest.
    + pose proof (writer_write_keeps (fun j => j = sid) f (x :: chunk)) as Hkeep.
      match type of Hwrite with writer_write f ?ch ?w0 = _ =>
        specialize (Hkeep w0); rewrite Hwrite in Hkeep;
        destruct Hkeep as (_ & _ & Hsame);
        exists rest; cbn [snd] in *; rewrite Hsame;
        [by apply Hrest | done | cbn; rewrite length_insert; by eapply lookup_lt_Some] end.
  - exists data. cbn [snd].
    pose proof (stream_read_keeps (fun j => False) sid chunk_size w (fun H => H)) as Hk.
    unfold stream_read in Hread. rewrite after_env_call in Hread.
    destruct (env_call w) as [[u|e'] w0].
    + cbn [streams set_faults] in Hread. rewrite Hs in Hread.
      by destruct (split_at _ data).
    + by injection Hread as _ <-.
Qed.

(** An upload attempt that raises after it opened its source stream leaves
    that stream open: [stream.close()] is only reached when the copy
    returned. *)
Lemma failed_attempt_leaves_stream_open (bucket_obj : gcs_bucket) (s3_bucket : pyval)
      (s3_key : str) (w w1 w' : world) (sid : nat) (size : option Z) (e : exn) :
  s3_get_object_stream s3_bucket s3_key w = (Returned (sid, size), w1) ->
  upload bucket_obj s3_bucket s3_key w = (Raised e, w') ->
  exists rest : bytes, streams w' !! sid = Some (Stream rest false).
Proof.
  intros Hget. unfold upload. unfold bind at 1. rewrite Hget.
  apply s3_get_object_stream_returned in Hget as (b & o & _ & _ & -> & _ & ->).
  unfold bind at 1.
  match goal with |- context [upload_stream_to_gcs ?b0 ?k ?s ?w0] =>
    destruct (upload_stream_to_gcs b0 k s w0) as [[[]|e0] w2] eqn:Hup; [done|] end.
  intros [= _ <-].
  unfold upload_stream_to_gcs, with_blob_open in Hup. unfold bind at 1 in Hup.
  match type of Hup with context [blob_open ?bl ?w0] =>
    pose proof (blob_open_keeps (fun j => True) bl w0) as Hopen;
    destruct (blob_open bl w0) as [[f|e1] w3] eqn:Hbo end.
  - apply blob_open_returned in Hbo as [-> ->].
    match type of Hup with context [copy_chunks ?n ?f0 ?s ?w0] =>
      destruct (copy_chunks_leaves_open n f0 s w0 (object_body o)) as (rest & Hrest);
      [by cbn; rewrite lookup_app_r, Nat.sub_diag|];
      destruct (copy_chunks n f0 s w0) as [[u|e2] w4] end;
      cbn [snd] in Hrest;
      match type of Hup with context [writer_close ?f1 ?w6] =>
        pose proof (writer_close_keeps (fun j => True) f1 w6) as (_ & _ & Hsame);
        destruct (writer_close f1 w6) as [[u'|e3] w5] end;
      cbn [snd] in Hsame; injection Hup as _ <-;
      exists rest; (rewrite Hsame; [done|done|by eapply lookup_lt_Some]).
  - injection Hup as _ <-. destruct Hopen as (_ & _ & Hsame). cbn [snd] in Hsame.
    exists (object_body o). rewrite Hsame; [|done|cbn; rewrite length_app; simpl; lia].
    cbn. by rewrite lookup_app_r, Nat.sub_diag.
Qed.

(** C7 does not hold of the code.  On [example_world] the handler returns
    "Replication successful" and the stream opened before the idempotency
    check (stream 0) is still open; only the stream of the upload attempt
    (stream 1) was closed.  When the first read of the first attempt fails,
    the handler still succeeds on the second attempt, and the stream of the
    failed attempt (stream 1) is left open as well. *)
Theorem source_streams_left_open :
  fst (lambda_handler (libs := example_libraries) example_config example_event example_world)
  = Returned success_response
  /\ streams (snd (lambda_handler (libs := example_libraries) example_config example_event
                     example_world))
     = [Stream example_body false; Stream [] true]
  /\ fst (lambda_handler (libs := example_libraries) example_config example_event
            world_with_read_failure)
     = Returned success_response
  /\ streams (snd (lambda_handler (libs := example_libraries) example_config example_event
                     world_with_read_failure))
     = [Stream example_body false; Stream example_body false; Stream [] true].
Proof. repeat split; vm_compute; reflexivity. Qed.

(** * Further properties *)

(** ** The HTTP endpoint *)

Lemma py_get_default (items : list (str * pyval)) (k : string) (v : pyval) :
  py_bool (default PNone (dict_get items (py k))) = true ->
  default PNone (dict_get items (py k)) = v ->
  dict_get items (py k) = Some v.
Proof. destruct (dict_get items (py k)) as [x|]; cbn; [by intros _ ->|done]. Qed.

(** What [replicate] does on a JSON object. *)
Lemma replicate_object_body `{ExceptionText} `{Console} (items : list (str * pyval))
      (out : stdout) :
  let s3_bucket := default PNone (dict_get items (py "s3_bucket")) in
  let s3_key := default PNone (dict_get items (py "s3_key")) in
  replicate (Request (Some (PDict items))) out
  = if py_bool s3_bucket && py_bool s3_key
    then match print_failure s3_bucket s3_key with
         | None => (Returned (DictResult (received_content s3_bucket s3_key)),
                    out ++ [(s3_bucket, s3_key)])
         | Some e => (Returned (error_answer e), out)
         end
    else (Returned (JSONResponse 400 missing_fields_content), out).
Proof.
  intros s3_bucket s3_key.
  unfold replicate, try_except, bind, lift, ret, print_request, error_answer. cbn -[py].
  fold s3_bucket s3_key.
  destruct (py_bool s3_bucket), (py_bool s3_key); cbn -[py]; try done.
  by destruct (print_failure s3_bucket s3_key).
Qed.

(** What [replicate] does on anything else. *)
Lemma replicate_other_body `{ExceptionText} `{Console} (req : request) (out : stdout) :
  ~ json_object req ->
  exists e : exn, replicate req out = (Returned (error_answer e), out).
Proof.
  intros Hno. destruct req as [[v|]].
  - destruct v; try (by exists AttributeError).
    exfalso. apply Hno. by eexists.
  - by exists (EnvError "JSONDecodeError").
Qed.

Lemma json_object_cases (req : request) : json_object req \/ ~ json_object req.
Proof.
  destruct req as [[v|]]; [destruct v|];
    try (right; intros [? Hj]; cbn in Hj; discriminate).
  left. by eexists.
Qed.

Lemma names_object_unique (req : request) (b k b' k' : pyval) :
  names_object req b k -> names_object req b' k' -> b = b' /\ k = k'.
Proof.
  intros (items & Hj & Hb & Hk & _) (items' & Hj' & Hb' & Hk' & _).
  rewrite Hj in Hj'. injection Hj' as <-. split; congruence.
Qed.

(** X1: [replicate] never raises, and what it returns is settled by the
    body and the console.  It returns the dict exactly when the body is a
    JSON object with true values for [s3_bucket] and [s3_key] and the line
    could be printed; it returns the response 400 exactly when the body is a
    JSON object in which one of the two values is missing or false; it
    returns a response 500 carrying the text of an exception exactly when the
    body is not a JSON object or printing the line raised.  Nothing is
    printed unless the dict is returned. *)
Theorem replicate_answers `{ExceptionText} `{Console} (req : request) (out : stdout) :
  exists (r : endpoint_result) (out' : stdout),
    replicate req out = (Returned r, out')
    /\ ((exists b k, r = DictResult (received_content b k))
        <-> exists b k, names_object req b k /\ print_failure b k = None)
    /\ (r = JSONResponse 400 missing_fields_content
        <-> json_object req /\ ~ exists b k, names_object req b k)
    /\ ((exists e, r = error_answer e)
        <-> ~ json_object req
            \/ exists b k e, names_object req b k /\ print_failure b k = Some e)
    /\ ((forall content, r <> DictResult content) -> out' = out).
Proof.
  destruct (json_object_cases req) as [(items & Hj)|Hnj]; cycle 1.
  { destruct (replicate_other_body req out Hnj) as (e & Hrun).
    eexists _, _. split; [exact Hrun|].
    split; [split; [by intros (b & k & Hr)
                   |intros (b & k & (items & Hj & _) & _); destruct Hnj; by eexists]|].
    split; [split; [done|by intros [Hj _]]|].
    split; [split; [by left|intros _; by exists e]|]. done. }
  destruct req as [j]. cbn in Hj. subst j.
  pose proof (replicate_object_body items out) as Hrun. cbn zeta in Hrun.
  set (s3_bucket := default PNone (dict_get items (py "s3_bucket"))) in *.
  set (s3_key := default PNone (dict_get items (py "s3_key"))) in *.
  assert (Hobj : json_object (Request (Some (PDict items)))) by (by exists items).
  destruct (py_bool s3_bucket && py_bool s3_key) eqn:Hboth; cycle 1.
  { eexists _, _. split; [exact Hrun|].
    assert (Hnone : ~ exists b k, names_object (Request (Some (PDict items))) b k).
    { intros (b & k & items' & [= <-] & Hgb & Hgk & Hb & Hk).
      subst s3_bucket s3_key. rewrite Hgb, Hgk in Hboth. cbn in Hboth.
      by rewrite Hb, Hk in Hboth. }
    split; [split; [by intros (b & k & Hr)
                   |intros (b & k & Hn & _); destruct Hnone; eauto]|].
    split; [split; [done|done]|].
    split; [split; [by intros (e & Hr)
                   |intros [Hnj|(b & k & e & Hn & _)]; [done|destruct Hnone; eauto]]|].
    done. }
  apply andb_prop in Hboth as [Hb Hk].
  assert (Hnames : names_object (Request (Some (PDict items))) s3_bucket s3_key).
  { exists items. repeat split; try done; by apply py_get_default. }
  destruct (print_failure s3_bucket s3_key) as [e|] eqn:Hp.
  - eexists _, _. split; [exact Hrun|].
    split; [split; [by intros (b & k & Hr)|]|].
    { intros (b & k & Hn & Hpn).
      destruct (names_object_unique _ _ _ _ _ Hn Hnames) as [-> ->]. congruence. }
    split; [split; [done|intros [_ Hno]; destruct Hno; eauto]|].
    split; [split; [intros _; right; by exists s3_bucket, s3_key, e|intros _; by exists e]|].
    done.
  - eexists _, _. split; [exact Hrun|].
    split; [split; [intros _; by exists s3_bucket, s3_key|intros _; by exists s3_bucket, s3_key]|].
    split; [split; [done|intros [_ Hno]; destruct Hno; eauto]|].
    split; [split; [by intros (e & Hr)|]|].
    { intros [Hnj|(b & k & e & Hn & Hpn)]; [done|].
      destruct (names_object_unique _ _ _ _ _ Hn Hnames) as [-> ->]. congruence. }
    intros Hno. by destruct (Hno (received_content s3_bucket s3_key)).
Qed.

(** X2: a request whose body names a bucket and a key is answered with
    exactly these two values, as they came (the key is not decoded), after
    one line was printed for it; when printing the line raises, the answer
    is the response 500 with the text of that exception, and nothing was
    printed. *)
Theorem replicate_echoes `{ExceptionText} `{Console} (req : request)
        (s3_bucket s3_key : pyval) (out : stdout) :
  names_object req s3_bucket s3_key ->
  replicate req out
  = match print_failure s3_bucket s3_key with
    | None => (Returned (DictResult (received_content s3_bucket s3_key)),
               out ++ [(s3_bucket, s3_key)])
    | Some e => (Returned (error_answer e), out)
    end.
Proof.
  intros (items & Hj & Hgb & Hgk & Hb & Hk). destruct req as [j]. cbn in Hj. subst j.
  rewrite replicate_object_body. cbn zeta. rewrite Hgb, Hgk. cbn. by rewrite Hb, Hk.
Qed.

Lemma replicate_echoes_witness :
  replicate (H := example_texts) (H0 := utf8_console) example_request []
  = (Returned (DictResult (received_content (PStr (py "photos"))
                             (PStr (py "my%20file%2Bname.txt")))),
     [(PStr (py "photos"), PStr (py "my%20file%2Bname.txt"))]).
Proof.
  apply (@replicate_echoes example_texts utf8_console example_request
           (PStr (py "photos")) (PStr (py "my%20file%2Bname.txt")) []).
  eexists. repeat split; reflexivity.
Defined.

(** On a console that cannot encode a lone surrogate, a request whose key
    is one is answered with the response 500, and nothing is printed. *)
Lemma replicate_surrogate_key :
  replicate (H := example_texts) (H0 := utf8_console) request_with_surrogate []
  = (Returned (JSONResponse 500 (PDict [(py "error", PStr (py "error"))])), []).
Proof. vm_compute. reflexivity. Qed.

(** ** Steps and the relations they respect *)

Section Frames.
Context (R : world -> world -> Prop).
Hypothesis R_refl : forall w, R w w.
Hypothesis R_trans : forall w1 w2 w3, R w1 w2 -> R w2 w3 -> R w1 w3.
Hypothesis R_faults : forall w, R w (set_faults (drop 1) w).

Lemma bind_rel {A B} (m : M world A) (k : A -> M world B) (w : world) :
  R w (snd (m w)) ->
  (forall a w1, m w = (Returned a, w1) -> R w1 (snd (k a w1))) ->
  R w (snd (bind m k w)).
Proof.
  intros Hm Hk. unfold bind. destruct (m w) as [[a|e] w1] eqn:Hmw; [|exact Hm].
  eapply R_trans; [exact Hm|]. by apply Hk.
Qed.

Lemma client_call_rel {A} (op : M world A) (w : world) :
  R (set_faults (drop 1) w) (snd (op (set_faults (drop 1) w))) ->
  R w (snd ((env_call ;; op) w)).
Proof.
  intros Hop. rewrite after_env_call.
  destruct (env_call w) as [[u|e] w1]; [|apply R_faults].
  eapply R_trans; [apply R_faults|exact Hop].
Qed.

Lemma try_except_rel {A} (body : M world A) (handler : exn -> M world A) (w : world) :
  R w (snd (body w)) ->
  (forall e w1, body w = (Raised e, w1) -> R w1 (snd (handler e w1))) ->
  R w (snd (try_except body handler w)).
Proof.
  intros Hb Hh. unfold try_except. destruct (body w) as [[a|e] w1] eqn:Hbw; [exact Hb|].
  eapply R_trans; [exact Hb|]. by apply Hh.
Qed.

Section CopyLoop.
Context (f sid : nat).
Hypothesis R_read : forall w, R w (snd (stream_read sid chunk_size w)).
Hypothesis R_write : forall chunk w, R w (snd (writer_write f chunk w)).

Lemma copy_chunks_rel (fuel : nat) (w : world) : R w (snd (copy_chunks fuel f sid w)).
Proof.
  revert w. induction fuel as [|fuel IH]; intros w; [apply R_refl|].
  cbn [copy_chunks]. apply bind_rel; [apply R_read|].
  intros [|x chunk] w1 _; [apply R_refl|].
  apply bind_rel; [apply R_write|]. intros _ w2 _. apply IH.
Qed.
End CopyLoop.

End Frames.

Lemma same_counts_refl (w : world) : same_counts w w.
Proof. by repeat split. Qed.

Lemma same_counts_trans (w1 w2 w3 : world) :
  same_counts w1 w2 -> same_counts w2 w3 -> same_counts w1 w3.
Proof. intros (? & ? & ?) (? & ? & ?). repeat split; congruence. Qed.

Lemma same_counts_faults (w : world) : same_counts w (set_faults (drop 1) w).
Proof. by repeat split. Qed.

Lemma stream_read_counts (sid : nat) (amt : Z) (w : world) :
  same_counts w (snd (stream_read sid amt w)).
Proof.
  apply (client_call_rel same_counts same_counts_trans same_counts_faults).
  destruct (streams _ !! sid) as [[data [|]]|]; try apply same_counts_refl.
  cbn zeta. destruct (split_at _ data) as [chunk rest].
  repeat split. cbn. apply length_insert.
Qed.

Lemma stream_close_counts (sid : nat) (w : world) :
  same_counts w (snd (stream_close sid w)).
Proof.
  apply (client_call_rel same_counts same_counts_trans same_counts_faults).
  destruct (streams _ !! sid) as [[data cl]|]; [|apply same_counts_refl].
  repeat split. cbn. apply length_insert.
Qed.

Lemma writer_write_counts (fid : nat) (chunk : bytes) (w : world) :
  same_counts w (snd (writer_write fid chunk w)).
Proof.
  apply (client_call_rel same_counts same_counts_trans same_counts_faults).
  destruct (writers _ !! fid) as [[key buf [|]]|]; try apply same_counts_refl.
  repeat split. cbn. apply length_insert.
Qed.

Lemma writer_close_counts (fid : nat) (w : world) :
  same_counts w (snd (writer_close fid w)).
Proof.
  apply (client_call_rel same_counts same_counts_trans same_counts_faults).
  destruct (writers _ !! fid) as [[key buf [|]]|]; try apply same_counts_refl.
  repeat split. cbn. apply length_insert.
Qed.

Lemma writer_kept_refl (fid : nat) (w : world) : writer_kept fid w w.
Proof. split; [done|]. intros wr Hwr. by exists wr. Qed.

Lemma writer_kept_trans (fid : nat) (w1 w2 w3 : world) :
  writer_kept fid w1 w2 -> writer_kept fid w2 w3 -> writer_kept fid w1 w3.
Proof.
  intros [Hg Hw] [Hg' Hw']. split; [congruence|].
  intros wr Hwr. destruct (Hw wr Hwr) as (wr1 & Hwr1 & Ht1).
  destruct (Hw' wr1 Hwr1) as (wr2 & Hwr2 & Ht2). exists wr2. split; [done|congruence].
Qed.

Lemma writer_kept_faults (fid : nat) (w : world) : writer_kept fid w (set_faults (drop 1) w).
Proof. split; [done|]. intros wr Hwr. by exists wr. Qed.

Lemma stream_read_writer_kept (fid sid : nat) (amt : Z) (w : world) :
  writer_kept fid w (snd (stream_read sid amt w)).
Proof.
  apply (client_call_rel (writer_kept fid) (writer_kept_trans fid) (writer_kept_faults fid)).
  destruct (streams _ !! sid) as [[data [|]]|]; try apply writer_kept_refl.
  cbn zeta. destruct (split_at _ data) as [chunk rest].
  split; [done|]. intros wr Hwr. by exists wr.
Qed.

Lemma writer_write_writer_kept (fid : nat) (chunk : bytes) (w : world) :
  writer_kept fid w (snd (writer_write fid chunk w)).
Proof.
  apply (client_call_rel (writer_kept fid) (writer_kept_trans fid) (writer_kept_faults fid)).
  destruct (writers _ !! fid) as [[key buf [|]]|] eqn:Hw; try apply writer_kept_refl.
  cbn [writers set_faults] in Hw.
  split; [done|]. intros wr Hwr. cbn in Hwr |- *. rewrite Hw in Hwr. injection Hwr as <-.
  eexists. split; [apply list_lookup_insert_eq; by eapply lookup_lt_Some|done].
Qed.

Lemma only_key_written_refl (key : str) (w : world) : only_key_written key w w.
Proof. by intros k Hk. Qed.

Lemma only_key_written_trans (key : str) (w1 w2 w3 : world) :
  only_key_written key w1 w2 -> only_key_written key w2 w3 -> only_key_written key w1 w3.
Proof. intros H12 H23 k Hk. rewrite H23, H12; done. Qed.

Lemma only_key_written_same (key : str) (w w' : world) :
  gcs_objects w' = gcs_objects w -> only_key_written key w w'.
Proof. intros Hg k Hk. by rewrite Hg. Qed.

(** ** The effects of one upload attempt *)

(** Whatever its outcome, [upload_stream_to_gcs] does not sleep, opens no
    source stream, opens at most one write stream, and stores nothing except
    under the name of its blob. *)
Lemma upload_stream_to_gcs_effects (bucket_obj : gcs_bucket) (key : str) (sid : nat)
      (w w' : world) (r : outcome unit) :
  upload_stream_to_gcs bucket_obj key sid w = (r, w') ->
  slept w' = slept w
  /\ length (streams w') = length (streams w)
  /\ (length (writers w) <= length (writers w') <= S (length (writers w)))%nat
  /\ only_key_written key w w'.
Proof.
  unfold upload_stream_to_gcs, with_blob_open. unfold bind at 1.
  destruct (blob_open (bucket_blob bucket_obj key) w) as [[f|e] w1] eqn:Hopen; cycle 1.
  { unfold blob_open in Hopen. rewrite after_env_call in Hopen.
    destruct (env_call w) as [[u|e'] w0]; [done|]. injection Hopen as _ <-.
    intros [= _ <-]. cbn. repeat split; (lia || done). }
  apply blob_open_returned in Hopen as [-> ->]. cbn [bucket_blob blob_name].
  set (f := length (writers w)).
  set (w1 := set_writers (fun l => l ++ [Writer key [] false]) (set_faults (drop 1) w)).
  assert (Hf : writers w1 !! f = Some (Writer key [] false))
    by (subst w1 f; cbn; by rewrite lookup_app_r, Nat.sub_diag).
  set (n := S (pending_bytes sid w1)).
  pose proof (copy_chunks_rel same_counts same_counts_refl same_counts_trans f sid
                (stream_read_counts sid chunk_size)
                (writer_write_counts f) n w1) as (Hsl & Hst & Hwr).
  pose proof (copy_chunks_rel (writer_kept f) (writer_kept_refl f) (writer_kept_trans f) f sid
                (stream_read_writer_kept f sid chunk_size)
                (writer_write_writer_kept f) n w1) as (Hg & Hkept).
  destruct (Hkept _ Hf) as (wr' & Hf' & Htarget). cbn in Htarget.
  destruct (copy_chunks n f sid w1) as [r2 w2]. cbn [snd] in *.
  pose proof (writer_close_counts f w2) as (Hsl3 & Hst3 & Hwr3).
  assert (Hkey : only_key_written key w (snd (writer_close f w2))).
  { unfold writer_close. rewrite after_env_call.
    destruct (env_call w2) as [[u|e] w0].
    - cbn [writers set_faults]. rewrite Hf'. destruct wr' as [key' buf [|]].
      + cbn. by apply only_key_written_same.
      + cbn in Htarget. subst key'. intros k Hk. cbn. rewrite Hg.
        by rewrite lookup_insert_ne.
    - cbn. by apply only_key_written_same. }
  assert (Hlen : length (writers w1) = S (length (writers w)))
    by (subst w1; cbn; rewrite length_app; simpl; lia).
  destruct (writer_close f w2) as [r3 w3]. cbn [snd] in *.
  intros Hrun. assert (w' = w3) as -> by (destruct r2, r3; congruence).
  rewrite Hsl3, Hst3, Hwr3, Hsl, Hst, Hwr, Hlen. repeat split; (done || lia).
Qed.

Lemma s3_get_object_stream_effects (bucket : pyval) (key : str) (w w' : world)
      (r : outcome (nat * option Z)) :
  s3_get_object_stream bucket key w = (r, w') ->
  slept w' = slept w /\ gcs_objects w' = gcs_objects w /\ writers w' = writers w
  /\ (length (streams w) <= length (streams w') <= S (length (streams w)))%nat.
Proof.
  unfold s3_get_object_stream. unfold bind at 1. unfold s3_get_object.
  rewrite after_env_call. destruct (env_call w) as [[u|e] w1];
    [|by intros [= _ <-]; cbn; repeat split; lia].
  destruct bucket as [| | | |b| |]; try (by intros [= _ <-]; cbn; repeat split; lia).
  cbn [s3_objects set_faults].
  destruct (s3_objects w !! (b, key)) as [o|]; [|by intros [= _ <-]; cbn; repeat split; lia].
  intros [= _ <-]. cbn. rewrite length_app. simpl. repeat split; lia.
Qed.

(** Whatever its outcome, an upload attempt does not sleep, opens at most
    one source stream and one write stream, and stores nothing except under
    the key. *)
Lemma upload_effects (bucket_obj : gcs_bucket) (s3_bucket : pyval) (s3_key : str)
      (w : world) :
  attempt_effects s3_key w (snd (upload bucket_obj s3_bucket s3_key w)).
Proof.
  unfold upload. unfold bind at 1.
  destruct (s3_get_object_stream s3_bucket s3_key w) as [[[sid size]|e] w1] eqn:Hget;
    apply s3_get_object_stream_effects in Hget as (Hsl & Hg & Hwr & Hst); cbn [snd];
    cycle 1.
  { unfold attempt_effects. rewrite Hsl, Hwr. repeat split; try (lia || done).
    by apply only_key_written_same. }
  unfold bind at 1.
  destruct (upload_stream_to_gcs bucket_obj s3_key sid w1) as [[[]|e] w2] eqn:Hup;
    apply upload_stream_to_gcs_effects in Hup as (Hsl2 & Hst2 & Hwr2 & Hk2); cbn [snd].
  - unfold bind, try_pass, ret. cbn [fst snd].
    pose proof (stream_close_counts sid w2) as (Hsl3 & Hst3 & Hwr3).
    pose proof (stream_close_stores sid w2) as (Hg3 & _).
    unfold attempt_effects. rewrite Hsl3, Hst3, Hwr3, Hsl2, Hst2, Hsl. rewrite Hwr in Hwr2.
    repeat split; try (lia || done).
    intros k Hk. rewrite Hg3, Hk2, Hg; done.
  - unfold attempt_effects. rewrite Hsl2, Hst2, Hsl. rewrite Hwr in Hwr2.
    repeat split; try (lia || done).
    intros k Hk. rewrite Hk2, Hg; done.
Qed.

Lemma blob_exists_state (blob : gcs_blob) (w : world) :
  snd (blob_exists blob w) = set_faults (drop 1) w.
Proof.
  unfold blob_exists. rewrite after_env_call. by destruct (env_call w) as [[u|e] w1].
Qed.

Lemma file_exists_and_same_size_counts (bucket_obj : gcs_bucket) (key : str)
      (s3_size : option Z) (w : world) :
  same_counts w (snd (file_exists_and_same_size bucket_obj key s3_size w)).
Proof.
  unfold file_exists_and_same_size.
  apply (bind_rel same_counts same_counts_trans).
  { rewrite blob_exists_state. apply same_counts_faults. }
  intros found w1 _. destruct (negb found); [apply same_counts_refl|].
  apply (try_except_rel same_counts same_counts_trans);
    [|intros; apply same_counts_refl].
  destruct s3_size as [n|]; [|apply same_counts_refl].
  apply (bind_rel same_counts same_counts_trans); [|intros; apply same_counts_refl].
  apply same_counts_refl.
Qed.

(** The gate does not sleep and opens no stream of either kind. *)
Lemma idempotency_gate_counts (bucket_obj : gcs_bucket) (key : str) (sid : nat)
      (s3_size : option Z) (w : world) :
  same_counts w (snd (idempotency_gate bucket_obj key sid s3_size w)).
Proof.
  unfold idempotency_gate.
  apply (try_except_rel same_counts same_counts_trans).
  - apply (bind_rel same_counts same_counts_trans);
      [apply file_exists_and_same_size_counts|].
    intros [|] w1 _; [|apply same_counts_refl].
    apply (bind_rel same_counts same_counts_trans); [by repeat split|].
    intros _ w2 _.
    apply (bind_rel same_counts same_counts_trans); [|intros; apply same_counts_refl].
    unfold try_pass. cbn [snd]. apply stream_close_counts.
  - intros e w1 _.
    apply (bind_rel same_counts same_counts_trans); [by repeat split|].
    intros; apply same_counts_refl.
Qed.

Lemma init_gcs_client_counts `{Libraries} (cfg : config) (w : world) :
  same_counts w (snd (init_gcs_client cfg w)).
Proof.
  assert (Hkey : forall content,
    same_counts w (snd ((write_file tmp_path content ;; from_service_account_json tmp_path) w))).
  { intros content. rewrite client_from_key.
    destruct (fault_at 0 w); [by repeat split|]. cbn zeta.
    destruct (fault_at 1 w); [by repeat split|].
    destruct (service_account_ok content); by repeat split. }
  unfold init_gcs_client.
  destruct (truthy (GCP_SA_KEY cfg)); [apply Hkey|].
  destruct (truthy (GCP_SA_KEY_B64 cfg)); [|apply same_counts_refl].
  destruct (b64decode_utf8 _) as [decoded|]; [apply Hkey|apply same_counts_refl].
Qed.

(** ** The effects of the retry loop on the world *)

Lemma linear_backoffs_cons (backoff first : Z) (n : nat) :
  linear_backoffs backoff first (S n)
  = backoff * first :: linear_backoffs backoff (first + 1) n.
Proof. reflexivity. Qed.

Section WorldRetry.
Context {A : Type} (key : str) (fn : M world A) (attempts backoff : Z).
Hypothesis fn_effects : forall s, attempt_effects key s (snd (fn s)).

(** With [todo] iterations left the loop sleeps the next linear backoffs,
    fewer than [todo] of them, and lets [fn] do the rest. *)
Lemma retry_from_world_effects (todo : nat) :
  forall (i : Z) (last_exc : option exn) (w w' : world) (r : outcome A),
    todo = O \/ i + Z.of_nat todo = attempts ->
    retry_from fn attempts backoff todo i last_exc w = (r, w') ->
    exists k : nat,
      (k <= todo - 1)%nat
      /\ slept w' = slept w ++ linear_backoffs backoff (i + 1) k
      /\ (length (streams w) <= length (streams w') <= length (streams w) + todo)%nat
      /\ (length (writers w) <= length (writers w') <= length (writers w) + todo)%nat
      /\ only_key_written key w w'.
Proof.
  induction todo as [|todo IH]; intros i last_exc w w' r Hsum.
  - cbn [retry_from]. intros Hrun.
    assert (w' = w) as -> by (destruct last_exc; by injection Hrun as _ <-).
    exists O. rewrite app_nil_r. repeat split; try lia; by try apply only_key_written_refl.
  - destruct Hsum as [|Hsum]; [done|].
    cbn [retry_from]. unfold try_except.
    pose proof (fn_effects w) as (Hsl & Hst & Hwr & Hk).
    destruct (fn w) as [[v|e] w1]; cbn [snd] in *.
    { intros [= _ <-]. exists O. rewrite app_nil_r, Hsl. repeat split; try lia. done. }
    unfold bind at 1. cbn [logger_warning world_runtime]. unfold logger_log at 1.
    unfold bind at 1.
    set (w2 := set_logged (fun l => l ++ [AttemptFailed (i + 1) e]) w1).
    destruct (i <? attempts - 1) eqn:Hlt.
    + apply Z.ltb_lt in Hlt. cbn [time_sleep world_runtime]. unfold world_sleep.
      destruct (backoff * (i + 1) <? 0).
      * intros [= _ <-]. exists O. rewrite app_nil_r. cbn. rewrite Hsl.
        repeat split; try lia. done.
      * intros Hrun. apply IH in Hrun as (k & Hk' & Hsl' & Hst' & Hwr' & Hkey'); [|lia].
        cbn in Hsl', Hst', Hwr'.
        exists (S k). split; [lia|]. split.
        { rewrite Hsl', Hsl, <- app_assoc. by rewrite linear_backoffs_cons. }
        split; [lia|]. split; [lia|].
        eapply only_key_written_trans; [exact Hk|]. intros k0 Hk0. by rewrite Hkey'.
    + apply Z.ltb_ge in Hlt. cbn [ret]. intros Hrun.
      apply IH in Hrun as (k & Hk' & Hsl' & Hst' & Hwr' & Hkey'); [|lia].
      cbn in Hsl', Hst', Hwr'.
      assert (k = O) as -> by lia. rewrite app_nil_r in Hsl'.
      exists O. rewrite app_nil_r. split; [lia|]. split; [congruence|].
      split; [lia|]. split; [lia|].
      eapply only_key_written_trans; [exact Hk|]. intros k0 Hk0. by rewrite Hkey'.
Qed.

Lemma retry_fn_world_effects (w w' : world) (r : outcome A) :
  retry_fn fn attempts backoff w = (r, w') ->
  exists k : nat,
    (k <= Z.to_nat attempts - 1)%nat
    /\ slept w' = slept w ++ linear_backoffs backoff 1 k
    /\ (length (streams w) <= length (streams w')
        <= length (streams w) + Z.to_nat attempts)%nat
    /\ (length (writers w) <= length (writers w')
        <= length (writers w) + Z.to_nat attempts)%nat
    /\ only_key_written key w w'.
Proof.
  unfold retry_fn. intros Hrun.
  apply retry_from_world_effects in Hrun; [exact Hrun|].
  destruct (Z.to_nat attempts) eqn:Hn; [by left|right; lia].
Qed.

End WorldRetry.

(** ** The effects of one invocation *)

(** Whatever its outcome, the part of the handler that follows the reading
    of the event sleeps some of the first linear backoffs, fewer than
    [RETRY_ATTEMPTS] of them, opens at most one source stream more than
    [RETRY_ATTEMPTS] and at most [RETRY_ATTEMPTS] write streams, and stores
    nothing except under the key. *)
Lemma replicate_object_effects `{Libraries} (cfg : config) (name : pyval) (key : str)
      (w w' : world) (r : outcome response) :
  replicate_object cfg name key w = (r, w') ->
  exists k : nat,
    (k <= Z.to_nat (RETRY_ATTEMPTS cfg) - 1)%nat
    /\ slept w' = slept w ++ linear_backoffs (RETRY_BACKOFF cfg) 1 k
    /\ (length (streams w') <= length (streams w) + 1 + Z.to_nat (RETRY_ATTEMPTS cfg))%nat
    /\ (length (writers w') <= length (writers w) + Z.to_nat (RETRY_ATTEMPTS cfg))%nat
    /\ only_key_written key w w'.
Proof.
  assert (Hnone : forall w1 : world,
    slept w1 = slept w -> (length (streams w1) <= S (length (streams w)))%nat ->
    writers w1 = writers w -> gcs_objects w1 = gcs_objects w ->
    exists k : nat,
      (k <= Z.to_nat (RETRY_ATTEMPTS cfg) - 1)%nat
      /\ slept w1 = slept w ++ linear_backoffs (RETRY_BACKOFF cfg) 1 k
      /\ (length (streams w1) <= length (streams w) + 1 + Z.to_nat (RETRY_ATTEMPTS cfg))%nat
      /\ (length (writers w1) <= length (writers w) + Z.to_nat (RETRY_ATTEMPTS cfg))%nat
      /\ only_key_written key w w1).
  { intros w1 Hsl Hst Hwr Hg. exists O. rewrite app_nil_r, Hwr.
    repeat split; try (done || lia). by apply only_key_written_same. }
  unfold replicate_object. unfold bind at 1.
  pose proof (init_gcs_client_counts cfg w) as (Hsl1 & Hst1 & _).
  pose proof (init_gcs_client_state cfg w) as (_ & _ & Hg1 & Hwr1 & _).
  destruct (init_gcs_client cfg w) as [[client|e] w1]; cbn [snd] in *; cycle 1.
  { intros [= _ <-]. apply Hnone; (done || lia). }
  unfold bind at 1.
  destruct (s3_get_object_stream name key w1) as [[[sid size]|e] w2] eqn:Hget;
    apply s3_get_object_stream_effects in Hget as (Hsl2 & Hg2 & Hwr2 & Hst2); cycle 1.
  { intros [= _ <-]. apply Hnone; try congruence. lia. }
  unfold bind at 1.
  pose proof (idempotency_gate_counts (client_bucket client (GCS_BUCKET cfg)) key sid size w2)
    as (Hsl3 & Hst3 & _).
  destruct (idempotency_gate_runs (client_bucket client (GCS_BUCKET cfg)) key sid size w2)
    as (w3 & Hgate & Hg3 & Hwr3 & _).
  rewrite Hgate in *. cbn [snd] in *.
  unfold upload_with_retries. unfold bind at 1.
  destruct (retry_fn _ _ _ w3) as [[v|e] w4] eqn:Hretry;
    apply (retry_fn_world_effects key _ _ _ (upload_effects _ name key)) in Hretry
      as (k & Hk & Hsl4 & Hst4 & Hwr4 & Hkey4).
  - unfold bind, logger_log, ret. intros [= _ <-]. exists k. cbn.
    split; [done|]. split; [congruence|]. split; [lia|]. split; [rewrite <- Hwr1, <- Hwr2, <- Hwr3; lia|].
    intros k0 Hk0. rewrite Hkey4 by done. congruence.
  - intros [= _ <-]. exists k.
    split; [done|]. split; [congruence|]. split; [lia|]. split; [rewrite <- Hwr1, <- Hwr2, <- Hwr3; lia|].
    intros k0 Hk0. rewrite Hkey4 by done. congruence.
Qed.

(** The same for the whole handler, where [key] is whatever key the event
    gave. *)
Lemma lambda_handler_effects `{Libraries} (cfg : config) (event : pyval) (w : world) :
  let w' := snd (lambda_handler cfg event w) in
  exists k : nat,
    (k <= Z.to_nat (RETRY_ATTEMPTS cfg) - 1)%nat
    /\ slept w' = slept w ++ linear_backoffs (RETRY_BACKOFF cfg) 1 k
    /\ (length (streams w') <= length (streams w) + 1 + Z.to_nat (RETRY_ATTEMPTS cfg))%nat
    /\ (length (writers w') <= length (writers w) + Z.to_nat (RETRY_ATTEMPTS cfg))%nat
    /\ match event_fields event with
       | Returned (_, key) => only_key_written key w w'
       | Raised _ => gcs_objects w' = gcs_objects w
       end.
Proof.
  destruct (event_fields event) as [[name key]|e] eqn:Hf.
  - rewrite (lambda_handler_fields cfg event name key w Hf). cbn zeta.
    destruct (replicate_object cfg name key _) as [r w'] eqn:Hrun.
    apply replicate_object_effects in Hrun. exact Hrun.
  - unfold lambda_handler, bind, logger_log, try_except, lift, raise. rewrite Hf. cbn.
    exists O. rewrite app_nil_r. repeat split; lia.
Qed.

(** ** Retry configuration at the edges *)

Lemma upload_with_retries_no_attempts (cfg : config) (bucket_obj : gcs_bucket)
      (s3_bucket : pyval) (s3_key : str) (w : world) :
  RETRY_ATTEMPTS cfg <= 0 ->
  upload_with_retries cfg bucket_obj s3_bucket s3_key w = (Raised TypeError, w).
Proof.
  intros Hle. unfold upload_with_retries, retry_fn.
  replace (Z.to_nat (RETRY_ATTEMPTS cfg)) with O by lia. reflexivity.
Qed.

Lemma replicate_object_no_attempts `{Libraries} (cfg : config) (name : pyval) (key : str)
      (w w' : world) (r : outcome response) :
  RETRY_ATTEMPTS cfg <= 0 ->
  replicate_object cfg name key w = (r, w') ->
  r <> Returned success_response
  /\ gcs_objects w' = gcs_objects w /\ writers w' = writers w.
Proof.
  intros Hle. unfold replicate_object. unfold bind at 1.
  pose proof (init_gcs_client_state cfg w) as (_ & _ & Hg1 & Hwr1 & _).
  destruct (init_gcs_client cfg w) as [[client|e] w1]; cbn [snd] in *;
    [|by intros [= <- <-]].
  unfold bind at 1.
  destruct (s3_get_object_stream name key w1) as [[[sid size]|e] w2] eqn:Hget;
    apply s3_get_object_stream_effects in Hget as (_ & Hg2 & Hwr2 & _);
    [|intros [= <- <-]; repeat split; (done || congruence)].
  unfold bind at 1.
  destruct (idempotency_gate_runs (client_bucket client (GCS_BUCKET cfg)) key sid size w2)
    as (w3 & Hgate & Hg3 & Hwr3 & _).
  rewrite Hgate. rewrite upload_with_retries_no_attempts by done.
  intros [= <- <-]. repeat split; (done || congruence).
Qed.

(** X3: with [RETRY_ATTEMPTS] zero or negative nothing is ever uploaded.
    The loop body never runs and [raise last_exc] raises [TypeError], so an
    invocation that gets past the idempotency gate fails with [TypeError];
    no invocation answers "Replication successful", opens a write stream or
    changes the destination. *)
Theorem no_attempts_no_upload `{Libraries} (cfg : config) (event : pyval) (w : world) :
  RETRY_ATTEMPTS cfg <= 0 ->
  (forall (bucket_obj : gcs_bucket) (s3_bucket : pyval) (s3_key : str) (w0 : world),
      upload_with_retries cfg bucket_obj s3_bucket s3_key w0 = (Raised TypeError, w0))
  /\ fst (lambda_handler cfg event w) <> Returned success_response
  /\ gcs_objects (snd (lambda_handler cfg event w)) = gcs_objects w
  /\ writers (snd (lambda_handler cfg event w)) = writers w.
Proof.
  intros Hle. split; [intros; by apply upload_with_retries_no_attempts|].
  destruct (event_fields event) as [[name key]|e] eqn:Hf; cycle 1.
  { unfold lambda_handler, bind, logger_log, try_except, lift, raise. by rewrite Hf. }
  rewrite (lambda_handler_fields cfg event name key w Hf).
  destruct (replicate_object cfg name key _) as [r w'] eqn:Hrun.
  by apply (replicate_object_no_attempts cfg name key _ w' r Hle) in Hrun.
Qed.

Lemma no_attempts_no_upload_witness :
  upload_with_retries config_without_attempts example_bucket (PStr (py "photos"))
    (py "my file+name.txt") example_world
  = (Raised TypeError, example_world)
  /\ fst (lambda_handler (libs := example_libraries) config_without_attempts example_event
            example_world)
     <> Returned success_response
  /\ gcs_objects (snd (lambda_handler (libs := example_libraries) config_without_attempts
                         example_event example_world))
     = gcs_objects example_world.
Proof.
  destruct (@no_attempts_no_upload example_libraries config_without_attempts example_event
              example_world) as (Hup & Hno & Hg & _); [cbn; lia|].
  split; [apply Hup|]. by split.
Defined.

(** ** What one invocation may do *)

(** X5: whatever the event, the world and the outcome, the sleeps of one
    invocation are the first [k] linear backoffs [RETRY_BACKOFF * 1],
    [RETRY_BACKOFF * 2], ... for some [k] smaller than [RETRY_ATTEMPTS]; the
    handler never sleeps otherwise. *)
Theorem lambda_handler_sleeps `{Libraries} (cfg : config) (event : pyval) (w : world) :
  exists k : nat,
    (k <= Z.to_nat (RETRY_ATTEMPTS cfg) - 1)%nat
    /\ slept (snd (lambda_handler cfg event w))
       = slept w ++ linear_backoffs (RETRY_BACKOFF cfg) 1 k.
Proof.
  destruct (lambda_handler_effects cfg event w) as (k & Hk & Hsl & _).
  by exists k.
Qed.

(** X6: one invocation opens at most [1 + RETRY_ATTEMPTS] source streams
    (one before the gate, one per attempt) and at most [RETRY_ATTEMPTS] write
    streams. *)
Theorem lambda_handler_opens_boundedly `{Libraries} (cfg : config) (event : pyval)
        (w : world) :
  (length (streams (snd (lambda_handler cfg event w)))
   <= length (streams w) + 1 + Z.to_nat (RETRY_ATTEMPTS cfg))%nat
  /\ (length (writers (snd (lambda_handler cfg event w)))
      <= length (writers w) + Z.to_nat (RETRY_ATTEMPTS cfg))%nat.
Proof.
  destruct (lambda_handler_effects cfg event w) as (k & _ & _ & Hst & Hwr & _).
  by split.
Qed.

(** X7: an invocation changes the destination under no other key than the
    decoded key of the event, whatever happens: failed attempts, retries and
    exceptions included. *)
Theorem lambda_handler_writes_only_key `{Libraries} (cfg : config) (event : pyval)
        (raw : str) (w : world) :
  event_raw_key event = Returned (PStr raw) ->
  forall k : str,
    k <> Urllib.unquote_plus raw ->
    gcs_objects (snd (lambda_handler cfg event w)) !! k = gcs_objects w !! k.
Proof.
  intros Hraw k Hk.
  destruct (lambda_handler_effects cfg event w) as (n & _ & _ & _ & _ & Hkey).
  destruct (event_fields event) as [[name key]|e] eqn:Hf.
  - apply event_fields_returned in Hf as (raw' & _ & Hraw' & ->).
    rewrite Hraw in Hraw'. injection Hraw' as <-. by apply Hkey.
  - by rewrite Hkey.
Qed.

Lemma lambda_handler_writes_only_key_witness :
  gcs_objects (snd (lambda_handler (libs := example_libraries) example_config example_event
                      world_with_read_failure)) !! py "other.txt"
  = gcs_objects world_with_read_failure !! py "other.txt".
Proof.
  apply (@lambda_handler_writes_only_key example_libraries example_config example_event
           (py "my%20file%2Bname.txt") world_with_read_failure);
    [reflexivity | vm_compute; discriminate].
Defined.

(** ** What the answers mean *)

(** X8: end to end, whenever the handler answers "Replication successful"
    the destination holds, under the decoded key, exactly the body of the
    source object named by the event, whatever failed attempts, retries and
    short reads came before. *)
Theorem replication_is_faithful `{Libraries} (cfg : config) (event : pyval) (w w' : world) :
  lambda_handler cfg event w = (Returned success_response, w') ->
  exists (b raw : str) (o : s3_object),
    event_bucket_name event = Returned (PStr b)
    /\ event_raw_key event = Returned (PStr raw)
    /\ s3_objects w !! (b, Urllib.unquote_plus raw) = Some o
    /\ gcs_objects w' !! Urllib.unquote_plus raw = Some (object_body o).
Proof.
  intros Hrun.
  apply lambda_handler_success in Hrun as (b & raw & o & Hn & Hk & Ho & _ & Hg & _).
  by exists b, raw, o.
Qed.

Lemma replication_is_faithful_witness :
  exists (b raw : str) (o : s3_object),
    event_bucket_name example_event = Returned (PStr b)
    /\ event_raw_key example_event = Returned (PStr raw)
    /\ s3_objects world_with_read_failure !! (b, Urllib.unquote_plus raw) = Some o
    /\ gcs_objects
         (snd (lambda_handler (libs := example_libraries) example_config example_event
                 world_with_read_failure))
         !! Urllib.unquote_plus raw
       = Some (object_body o).
Proof.
  apply (@replication_is_faithful example_libraries example_config example_event
           world_with_read_failure).
  vm_compute. reflexivity.
Defined.

(** ** A run without failures *)

(** The first attempt that returns ends the loop. *)
Lemma retry_fn_first_try {A} (fn : M world A) (attempts backoff : Z) (w w' : world) (v : A) :
  1 <= attempts ->
  fn w = (Returned v, w') ->
  retry_fn fn attempts backoff w = (Returned v, w').
Proof.
  intros Ha Hfn. unfold retry_fn.
  destruct (Z.to_nat attempts) as [|todo] eqn:Htodo; [lia|].
  cbn [retry_from]. unfold try_except. by rewrite Hfn.
Qed.

(** Without injected failures an attempt on an object the source holds
    returns; it has stored the body through one write stream. *)
Lemma upload_quiet (bucket_obj : gcs_bucket) (b key : str) (o : s3_object) (w : world) :
  faults w = [] ->
  s3_objects w !! (b, key) = Some o ->
  exists w' : world,
    upload bucket_obj (PStr b) key w = (Returned true, w')
    /\ gcs_objects w' !! key = Some (object_body o)
    /\ slept w' = slept w
    /\ length (writers w') = S (length (writers w)).
Proof.
  intros Hq Ho.
  assert (Hrun : exists w' : world,
    upload bucket_obj (PStr b) key w = (Returned true, w')
    /\ gcs_objects w' !! key = Some (object_body o)
    /\ (length (writers w) < length (writers w'))%nat).
  { unfold upload. unfold bind at 1.
    rewrite (s3_get_object_stream_quiet b key o w Hq Ho).
    unfold bind at 1.
    match goal with |- context [upload_stream_to_gcs ?bo ?k ?sid ?w1] =>
      destruct (upload_stream_to_gcs_quiet bo k sid w1 (object_body o)) as (w2 & Hup & Hq2);
      [by cbn; rewrite lookup_app_r, Nat.sub_diag | by cbn; rewrite Hq |];
      rewrite Hup;
      eapply (upload_stream_to_gcs_returned _ _ _ _ _ (object_body o) false) in Hup;
        [|by cbn; rewrite lookup_app_r, Nat.sub_diag]
    end.
    destruct Hup as (Hg & Hwriter & _). cbn [writers set_streams set_faults] in Hwriter.
    unfold bind, try_pass, ret. cbn [fst snd].
    destruct (stream_close_stores (length (streams w)) w2) as [Hg3 Hwr3].
    eexists. split; [reflexivity|]. rewrite Hg3, Hwr3. split; [done|].
    by apply lookup_lt_Some in Hwriter. }
  destruct Hrun as (w' & Hrun & Hg & Hlt).
  pose proof (upload_effects bucket_obj (PStr b) key w) as (Hsl & _ & [_ Hwr] & _).
  rewrite Hrun in Hsl, Hwr. cbn [snd] in Hsl, Hwr.
  exists w'. repeat split; try done. lia.
Qed.

Lemma replicate_object_quiet `{Libraries} (cfg : config) (b key : str) (o : s3_object)
      (client : gcs_client) (w0 w0' w : world) :
  init_gcs_client cfg w0 = (Returned client, w0') ->
  1 <= RETRY_ATTEMPTS cfg ->
  faults w = [] ->
  s3_objects w !! (b, key) = Some o ->
  exists w' : world,
    replicate_object cfg (PStr b) key w = (Returned success_response, w')
    /\ gcs_objects w' !! key = Some (object_body o)
    /\ slept w' = slept w
    /\ length (writers w') = S (length (writers w)).
Proof.
  intros Hinit Ha Hq Ho.
  pose proof (init_gcs_client_again cfg w0 w0' w client Hinit Hq) as Hagain.
  pose proof (init_gcs_client_state cfg w) as (Hs3 & _ & _ & Hwi & Hqi).
  pose proof (init_gcs_client_counts cfg w) as (Hsli & _).
  destruct (init_gcs_client cfg w) as [r wi] eqn:Hrun.
  cbn [fst snd] in Hagain, Hs3, Hwi, Hqi, Hsli. subst r. specialize (Hqi Hq).
  unfold replicate_object. unfold bind at 1. rewrite Hrun. unfold bind at 1.
  rewrite (s3_get_object_stream_quiet b key o wi Hqi) by (by rewrite Hs3).
  unfold bind at 1.
  match goal with |- context [idempotency_gate ?bo key ?sid ?size ?w2] =>
    destruct (idempotency_gate_runs bo key sid size w2)
      as (w3 & Hgate & _ & Hwr3 & Hs33 & Hsl3 & _ & Hq3)
  end.
  rewrite Hgate. cbn [writers s3_objects slept faults set_streams set_faults] in Hwr3, Hs33, Hsl3, Hq3.
  rewrite Hqi in Hq3. cbn in Hq3.
  destruct (upload_quiet (client_bucket client (GCS_BUCKET cfg)) b key o w3 Hq3)
    as (w4 & Hup & Hg4 & Hsl4 & Hwr4); [by rewrite Hs33, Hs3|].
  unfold upload_with_retries. unfold bind at 1.
  rewrite (retry_fn_first_try _ _ _ w3 w4 true Ha Hup).
  unfold bind, logger_log, ret. eexists. split; [reflexivity|]. cbn.
  split; [done|]. split; congruence.
Qed.

(** X10: a run without failures replicates at the first attempt, whatever
    the destination holds.  When the credentials work, at least one attempt
    is allowed, no call fails and the source holds the object, the handler
    answers "Replication successful" and the destination then holds the body
    of the source object under the decoded key: an object already stored
    there, of the same size or not, is written again.  Nothing sleeps and
    exactly one write stream is opened. *)
Theorem quiet_run_replicates `{Libraries} (cfg : config) (event : pyval) (b raw : str)
        (o : s3_object) (client : gcs_client) (w wi : world) :
  event_bucket_name event = Returned (PStr b) ->
  event_raw_key event = Returned (PStr raw) ->
  init_gcs_client cfg w = (Returned client, wi) ->
  1 <= RETRY_ATTEMPTS cfg ->
  faults w = [] ->
  s3_objects w !! (b, Urllib.unquote_plus raw) = Some o ->
  exists w' : world,
    lambda_handler cfg event w = (Returned success_response, w')
    /\ gcs_objects w' !! Urllib.unquote_plus raw = Some (object_body o)
    /\ slept w' = slept w
    /\ length (writers w') = S (length (writers w)).
Proof.
  intros Hn Hk Hinit Ha Hq Ho.
  assert (Hf : event_fields event = Returned (PStr b, Urllib.unquote_plus raw))
    by (apply event_fields_returned; by exists raw).
  rewrite (lambda_handler_fields cfg event _ _ w Hf).
  apply (replicate_object_quiet cfg b (Urllib.unquote_plus raw) o client w wi
           (set_logged (fun l => l ++ [ReceivedEvent event]) w) Hinit Ha Hq Ho).
Qed.

Lemma quiet_run_replicates_witness :
  gcs_objects world_with_stale_copy !! py "my file+name.txt" = Some stale_body
  /\ length stale_body = length example_body
  /\ exists w' : world,
       lambda_handler (libs := example_libraries) example_config example_event
         world_with_stale_copy
       = (Returned success_response, w')
       /\ gcs_objects w' !! Urllib.unquote_plus (py "my%20file%2Bname.txt")
          = Some example_body
       /\ slept w' = slept world_with_stale_copy
       /\ length (writers w') = S (length (writers world_with_stale_copy)).
Proof.
  split; [vm_compute; reflexivity|]. split; [reflexivity|].
  apply (@quiet_run_replicates example_libraries example_config example_event
           (py "photos") (py "my%20file%2Bname.txt") (S3Object example_body (Some 5))
           (GcsClient (py "service-account-key")) world_with_stale_copy
           (snd (init_gcs_client (libs := example_libraries) example_config
                   world_with_stale_copy)));
    vm_compute; (reflexivity || discriminate).
Defined.

(** ** Events with several records *)

Lemma event_fields_of_record (event : pyval) :
  event_fields event
  = outcome_bind (event_record event) (fun record =>
    outcome_bind (event_bucket_name (records_event [record])) (fun name =>
    outcome_bind (event_raw_key (records_event [record])) (fun raw_key =>
    outcome_bind (unquote_plus raw_key) (fun key => Returned (name, key))))).
Proof.
  unfold event_fields, event_record.
  destruct (subscript event "Records") as [records|e]; [|done]. cbn [outcome_bind].
  destruct (subscript0 records) as [record|e]; [|done]. cbn [outcome_bind].
  change (event_bucket_name (records_event [record]))
    with (outcome_bind (subscript record "s3") (fun s3 =>
          outcome_bind (subscript s3 "bucket") (fun bucket => subscript bucket "name"))).
  change (event_raw_key (records_event [record]))
    with (outcome_bind (subscript record "s3") (fun s3 =>
          outcome_bind (subscript s3 "object") (fun object => subscript object "key"))).
  destruct (subscript record "s3") as [s3|e]; [|done]. cbn [outcome_bind].
  destruct (subscript s3 "bucket") as [bucket|e]; [|done]. cbn [outcome_bind].
  destruct (subscript bucket "name") as [name|e]; [|done]. cbn [outcome_bind].
  destruct (subscript s3 "object") as [object|e]; [|done]. cbn [outcome_bind].
  by destruct (subscript object "key") as [raw_key|e].
Qed.

(** X11: the handler looks at the first record only.  Two events with the
    same [Records[0]] give the same bucket and key or fail in the same way,
    and the rest of the event reaches nothing but the log line. *)
Theorem only_first_record `{Libraries} (cfg : config) (event event' : pyval) (w : world) :
  event_record event = event_record event' ->
  event_fields event = event_fields event'
  /\ forall (name : pyval) (key : str),
       event_fields event' = Returned (name, key) ->
       lambda_handler cfg event w
       = replicate_object cfg name key
           (set_logged (fun l => l ++ [ReceivedEvent event]) w).
Proof.
  intros Hrec.
  assert (Hsame : event_fields event = event_fields event')
    by (by rewrite (event_fields_of_record event), (event_fields_of_record event'), Hrec).
  split; [exact Hsame|].
  intros name key Hf. apply lambda_handler_fields. by rewrite Hsame.
Qed.

Lemma only_first_record_witness :
  event_fields event_with_two_records = event_fields example_event
  /\ lambda_handler (libs := example_libraries) example_config event_with_two_records
       example_world
     = replicate_object (libs := example_libraries) example_config (PStr (py "photos"))
         (py "my file+name.txt")
         (set_logged (fun l => l ++ [ReceivedEvent event_with_two_records]) example_world).
Proof.
  destruct (@only_first_record example_libraries example_config event_with_two_records
              example_event example_world eq_refl) as [Hsame Hrun].
  split; [exact Hsame|]. apply Hrun. vm_compute. reflexivity.
Defined.

(** ** The key file *)

(** X12: [init_gcs_client] settles on the raw secret when [GCP_SA_KEY] is
    set and not empty (an empty value counts as unset), else on the decoded
    [GCP_SA_KEY_B64].  Unless writing the file fails, that secret is what
    [/tmp/gcp_sa_key.json] holds afterwards, in clear, whether or not a
    client could be built from it; a client that is returned carries that
    secret, and the library accepted it. *)
Theorem init_gcs_client_key_file `{Libraries} (cfg : config) (secret : str) (w : world) :
  chosen_secret cfg = Some secret ->
  (fault_at 0 w = None -> files (snd (init_gcs_client cfg w)) !! tmp_path = Some secret)
  /\ forall (client : gcs_client) (w' : world),
       init_gcs_client cfg w = (Returned client, w') ->
       client = GcsClient secret
       /\ files w' !! tmp_path = Some secret
       /\ service_account_ok secret = true.
Proof.
  intros Hsecret.
  assert (Hrun : init_gcs_client cfg w
                 = (write_file tmp_path secret ;; from_service_account_json tmp_path) w).
  { unfold init_gcs_client, chosen_secret in *.
    destruct (truthy (GCP_SA_KEY cfg)); [by injection Hsecret as <-|].
    destruct (truthy (GCP_SA_KEY_B64 cfg)); [|done]. by rewrite Hsecret. }
  rewrite Hrun, client_from_key. split.
  - intros ->. cbn zeta. destruct (fault_at 1 w); [cbn; apply lookup_insert_eq|].
    destruct (service_account_ok secret); cbn; apply lookup_insert_eq.
  - intros client w'. destruct (fault_at 0 w); [done|]. cbn zeta.
    destruct (fault_at 1 w); [done|].
    destruct (service_account_ok secret); [|done].
    intros [= <- <-]. cbn. split; [done|]. split; [apply lookup_insert_eq|done].
Qed.

Lemma init_gcs_client_key_file_witness :
  files (snd (init_gcs_client (libs := decoding_libraries) config_with_encoded_key
                example_world)) !! tmp_path
  = Some (py "decoded-service-account-key")
  /\ forall (client : gcs_client) (w' : world),
       init_gcs_client (libs := decoding_libraries) config_with_encoded_key example_world
       = (Returned client, w') ->
       client = GcsClient (py "decoded-service-account-key")
       /\ files w' !! tmp_path = Some (py "decoded-service-account-key")
       /\ service_account_ok (Libraries := decoding_libraries)
            (py "decoded-service-account-key") = true.
Proof.
  destruct (@init_gcs_client_key_file decoding_libraries config_with_encoded_key
              (py "decoded-service-account-key") example_world eq_refl) as [Hfile Hclient].
  split; [apply Hfile; reflexivity|exact Hclient].
Defined.

(** ** The size check on its own *)

(** X13: [file_exists_and_same_size] makes one client call, the existence
    check, whatever the size hint.  It raises exactly when that call raises,
    with its exception (the call stands outside the [try]), and in every
    other case it returns [False]: [True] is never returned, whatever the
    destination holds, because the size it reads is that of a handle made by
    [bucket.blob], which is [None]. *)
Theorem file_exists_and_same_size_outcome (bucket_obj : gcs_bucket) (key : str)
        (s3_size : option Z) (w : world) :
  (forall e : exn,
      fst (file_exists_and_same_size bucket_obj key s3_size w) = Raised e
      <-> exists tag : string, fault_at 0 w = Some tag /\ e = EnvError tag)
  /\ (fst (file_exists_and_same_size bucket_obj key s3_size w) = Returned false
      <-> fault_at 0 w = None)
  /\ fst (file_exists_and_same_size bucket_obj key s3_size w) <> Returned true
  /\ snd (file_exists_and_same_size bucket_obj key s3_size w) = set_faults (drop 1) w.
Proof.
  rewrite file_exists_and_same_size_result. cbn [fst snd].
  destruct (fault_at 0 w) as [tag0|].
  - split; [|by repeat split].
    intros e. split; [intros [= <-]; by exists tag0|by intros (tag & [= <-] & ->)].
  - split; [|by repeat split].
    intros e. split; [done|by intros (tag & ? & _)].
Qed.

(** ** Failures the retry loop does not cover *)

(** X4: a negative backoff unit is not a duration.  When the first attempt
    fails and another one is due, [time.sleep] raises on the negative
    length: [retry_fn] ends with [ValueError] after that single attempt,
    having logged the failure, and the exception of the attempt is lost. *)
Theorem negative_backoff_hides_failure {A} (fn : M world A) (attempts backoff : Z)
        (w w' : world) (e : exn) :
  2 <= attempts -> backoff < 0 ->
  fn w = (Raised e, w') ->
  retry_fn fn attempts backoff w
  = (Raised ValueError, set_logged (fun l => l ++ [AttemptFailed 1 e]) w').
Proof.
  intros Ha Hb Hfn. unfold retry_fn.
  destruct (Z.to_nat attempts) as [|todo] eqn:Htodo; [lia|].
  cbn [retry_from]. unfold try_except. rewrite Hfn.
  unfold bind at 1. cbn [logger_warning world_runtime]. unfold logger_log at 1.
  unfold bind at 1.
  replace (0 <? attempts - 1) with true by (symmetry; apply Z.ltb_lt; lia).
  cbn [time_sleep world_runtime]. unfold world_sleep.
  replace (backoff * (0 + 1) <? 0) with true by (symmetry; apply Z.ltb_lt; lia).
  reflexivity.
Qed.

Lemma negative_backoff_hides_failure_witness :
  retry_fn (raise (EnvError "unavailable") : M world bool) 3 (-2) example_world
  = (Raised ValueError,
     set_logged (fun l => l ++ [AttemptFailed 1 (EnvError "unavailable")]) example_world).
Proof.
  apply (@negative_backoff_hides_failure bool (raise (EnvError "unavailable")) 3 (-2)
           example_world example_world (EnvError "unavailable")); [lia|lia|reflexivity].
Defined.

(** X14: the first [s3_get_object_stream] of the handler stands outside the
    retry loop.  When the source has no object under the decoded key, the
    handler raises the error of that call at once: no attempt is made,
    nothing sleeps, no stream of either kind is opened and the destination
    is not touched. *)
Theorem missing_source_not_retried `{Libraries} (cfg : config) (event : pyval) (b key : str)
        (client : gcs_client) (w wi : world) :
  event_fields event = Returned (PStr b, key) ->
  init_gcs_client cfg w = (Returned client, wi) ->
  faults w = [] ->
  s3_objects w !! (b, key) = None ->
  exists w' : world,
    lambda_handler cfg event w = (Raised (EnvError "NoSuchKey"), w')
    /\ slept w' = slept w
    /\ streams w' = streams w
    /\ writers w' = writers w
    /\ gcs_objects w' = gcs_objects w.
Proof.
  intros Hf Hinit Hq Hnone.
  rewrite (lambda_handler_fields cfg event _ _ w Hf).
  set (w1 := set_logged (fun l => l ++ [ReceivedEvent event]) w).
  assert (Hq1 : faults w1 = []) by done.
  pose proof (init_gcs_client_again cfg w wi w1 client Hinit Hq1) as Hagain.
  pose proof (init_gcs_client_state cfg w1) as (Hs3 & Hst & Hg & Hwr & Hqi).
  pose proof (init_gcs_client_counts cfg w1) as (Hsl & _ & _).
  unfold replicate_object. unfold bind at 1.
  destruct (init_gcs_client cfg w1) as [r w2]. cbn [fst snd] in *. subst r.
  specialize (Hqi Hq1).
  unfold bind at 1. unfold s3_get_object_stream. unfold bind at 1.
  unfold s3_get_object. rewrite after_env_call, env_call_fault, (fault_at_quiet _ _ Hqi).
  cbn [s3_objects set_faults]. rewrite Hs3. change (s3_objects w1) with (s3_objects w).
  rewrite Hnone. eexists. split; [reflexivity|]. cbn. by rewrite Hsl, Hst, Hwr, Hg.
Qed.

Lemma missing_source_not_retried_witness :
  exists w' : world,
    lambda_handler (libs := example_libraries) example_config
      (s3_event (PStr (py "photos")) (PStr (py "gone.txt"))) example_world
    = (Raised (EnvError "NoSuchKey"), w')
    /\ slept w' = slept example_world
    /\ streams w' = streams example_world
    /\ writers w' = writers example_world
    /\ gcs_objects w' = gcs_objects example_world.
Proof.
  apply (@missing_source_not_retried example_libraries example_config
           (s3_event (PStr (py "photos")) (PStr (py "gone.txt")))
           (py "photos") (py "gone.txt")
           (GcsClient (py "service-account-key"))
           example_world
           (snd (init_gcs_client (libs := example_libraries) example_config example_world)));
    vm_compute; reflexivity.
Defined.
